(** * gitlab-mcp: credential resolution and client routing

    A shallow embedding of [GitLabGraphQLClient] (src/gitlab-client.ts) and of
    the configuration types of src/config.ts, with the properties of its
    authentication policy, its client cache and its schema cache.

    The class keeps four private fields ([baseClient], [config], [schema],
    [userClients]).  Its methods allocate [GraphQLClient] objects and call
    [request] on them; both effects are made explicit: every allocated
    client lives in a store and is named by its position there, and every
    call of [request] is appended to a log, with the client it is made on.

    A method that awaits is given twice: as one computation that runs to its
    end, and cut at its [await], for the executions in which calls overlap. *)

From Stdlib Require Import Ascii.
From stdpp Require Import base option strings list gmap.

(** ** Configuration (src/config.ts) *)

Inductive AuthMode := shared | per_user | hybrid.

#[global] Instance AuthMode_eq_dec : EqDecision AuthMode.
Proof. solve_decision. Defined.

Module Config.
Record t := mk {
  gitlabUrl : string;
  sharedAccessToken : option string;
  maxPageSize : Z;
  defaultTimeout : Z;
  authMode : AuthMode
}.
End Config.

Module UserConfig.
Record t := mk {
  accessToken : string;
  gitlabUrl : option string
}.
End UserConfig.

(** ** JavaScript values the class manipulates *)

(** Truthiness of a string: only the empty string is falsy. *)
Definition truthy (s : string) : bool :=
  match s with "" => false | _ => true end.

(** [a || b] where [a] is an optional string: [undefined] and [""] are falsy. *)
Definition or_else (a : option string) (b : string) : string :=
  match a with
  | Some s => if truthy s then s else b
  | None => b
  end.

(** [if (config.sharedAccessToken)] *)
Definition truthy_opt (a : option string) : bool :=
  match a with Some s => truthy s | None => false end.

(** [s.replace(/\/$/, '')]: without the [m] flag [$] matches at the end of the
    input only, so exactly one final slash is dropped, when there is one. *)
Fixpoint strip_trailing_slash (s : string) : string :=
  match s with
  | "" => ""
  | String c "" => if Ascii.eqb c "/"%char then "" else s
  | String c rest => String c (strip_trailing_slash rest)
  end.

(** Whatever a [throw] or a rejected promise carries.  The class creates
    [Error] objects only; the transport may throw anything, of which the class
    looks at the string rendering alone. *)
Inductive Thrown :=
  | Error (message : string)
  | Foreign (rendering : string).

(** [`${error}`]; for an [Error] this is [Error.prototype.toString]. *)
Definition to_string (e : Thrown) : string :=
  match e with
  | Error m => if truthy m then "Error: " +:+ m else "Error"
  | Foreign r => r
  end.

Inductive Outcome (A : Type) :=
  | Returns (a : A)
  | Throws (e : Thrown).
Arguments Returns {A} a.
Arguments Throws {A} e.

(** The [GraphQLClient] of graphql-request, as far as [createClient] builds it. *)
Record GraphQLClient := {
  endpoint : string;
  headers : list (string * string)
}.

(** A reference to an allocated [GraphQLClient]: its position in the store. *)
Definition ClientRef := nat.

(** What [schema.getQueryType()?.getFields()] and its mutation twin expose:
    the field names, in key order, when the root type exists. *)
Record GraphQLSchema := {
  getQueryType : option (list string);
  getMutationType : option (list string)
}.

(** A request handed to [client.request]: document and variables. *)
Record Request := {
  document : string;
  variables : option string
}.

(** ** The object and its runtime *)

Record State := {
  (* fields of the class *)
  baseClient : option ClientRef;
  config : Config.t;
  schema : option GraphQLSchema;
  userClients : gmap string ClientRef;
  (* runtime: the clients allocated, and the calls of [request] made, each
     with its client, in order *)
  store : list GraphQLClient;
  sent : list (ClientRef * Request)
}.

Definition set_baseClient (b : option ClientRef) (st : State) : State :=
  {| baseClient := b; config := config st; schema := schema st;
     userClients := userClients st; store := store st; sent := sent st |}.

Definition set_schema (s : option GraphQLSchema) (st : State) : State :=
  {| baseClient := baseClient st; config := config st; schema := s;
     userClients := userClients st; store := store st; sent := sent st |}.

Definition set_userClients (m : gmap string ClientRef) (st : State) : State :=
  {| baseClient := baseClient st; config := config st; schema := schema st;
     userClients := m; store := store st; sent := sent st |}.

Definition set_store (h : list GraphQLClient) (st : State) : State :=
  {| baseClient := baseClient st; config := config st; schema := schema st;
     userClients := userClients st; store := h; sent := sent st |}.

Definition set_sent (l : list (ClientRef * Request)) (st : State) : State :=
  {| baseClient := baseClient st; config := config st; schema := schema st;
     userClients := userClients st; store := store st; sent := l |}.

(** Methods run in a state-and-exception monad.  A [throw] keeps the state
    reached so far: JavaScript does not roll mutations back. *)
Definition M (A : Type) : Type := State → Outcome A * State.

Definition ret {A} (a : A) : M A := λ st, (Returns a, st).
Definition throw {A} (e : Thrown) : M A := λ st, (Throws e, st).
Definition bind {A B} (m : M A) (k : A → M B) : M B :=
  λ st, match m st with
        | (Returns a, st') => k a st'
        | (Throws e, st') => (Throws e, st')
        end.
Definition try_catch {A} (m : M A) (handler : Thrown → M A) : M A :=
  λ st, match m st with
        | (Returns a, st') => (Returns a, st')
        | (Throws e, st') => handler e st'
        end.
Definition get : M State := λ st, (Returns st, st).
Definition modify (f : State → State) : M unit := λ st, (Returns tt, f st).

Notation "'do' x ← m ; k" := (bind m (λ x, k))
  (at level 10, x name, m at level 100, k at level 200).
Notation "'run' m ; k" := (bind m (λ _, k))
  (at level 10, m at level 100, k at level 200).

(** [new GraphQLClient(endpoint, { headers })] *)
Definition new_GraphQLClient (c : GraphQLClient) : M ClientRef :=
  do st ← get;
  run modify (set_store (store st ++ [c]));
  ret (length (store st)).

(** ** Methods of [GitLabGraphQLClient] *)

Definition createClient (gitlabUrl accessToken : string) : M ClientRef :=
  let endpoint := strip_trailing_slash gitlabUrl +:+ "/api/graphql" in
  new_GraphQLClient
    {| endpoint := endpoint;
       headers := [("Authorization", "Bearer " +:+ accessToken);
                   ("Content-Type", "application/json")] |}.

(** The effective endpoint of a user credential:
    [userConfig.gitlabUrl || this.config.gitlabUrl]. *)
Definition effectiveUrl (cfg : Config.t) (userConfig : UserConfig.t) : string :=
  or_else (UserConfig.gitlabUrl userConfig) (Config.gitlabUrl cfg).

Definition userKey (cfg : Config.t) (userConfig : UserConfig.t) : string :=
  effectiveUrl cfg userConfig +:+ ":" +:+ UserConfig.accessToken userConfig.

(** The state a [new GitLabGraphQLClient(config)] starts from, before the
    constructor body runs. *)
Definition fresh (cfg : Config.t) : State :=
  {| baseClient := None; config := cfg; schema := None; userClients := ∅;
     store := []; sent := [] |}.

Definition constructor_body : M unit :=
  do st ← get;
  match Config.sharedAccessToken (config st) with
  | Some tok =>
      if truthy tok then
        do r ← createClient (Config.gitlabUrl (config st)) tok;
        modify (set_baseClient (Some r))
      else ret tt
  | None => ret tt
  end.

Definition constructor (cfg : Config.t) : State :=
  snd (constructor_body (fresh cfg)).

(** [getUserClient] ends in [this.userClients.get(userKey)!]: the [!] is a
    compile-time assertion, so the result is [None] ([undefined]) should the
    key be missing. *)
Definition getUserClient (userConfig : UserConfig.t) : M (option ClientRef) :=
  do st ← get;
  let userKey := userKey (config st) userConfig in
  run (if negb (bool_decide (is_Some (userClients st !! userKey))) then
         do client ← createClient (effectiveUrl (config st) userConfig)
                                  (UserConfig.accessToken userConfig);
         modify (λ st, set_userClients (<[userKey := client]> (userClients st)) st)
       else ret tt);
  do st ← get;
  ret (userClients st !! userKey).

Definition msg_write_requires_user : string :=
  "Write operations require user authentication. Please provide your GitLab credentials.".
Definition msg_requires_user : string :=
  "This operation requires user authentication. Please provide your GitLab credentials.".
Definition msg_no_auth : string :=
  "No authentication configured. Please provide GitLab credentials or configure a shared access token.".

Definition getClient (userConfig : option UserConfig.t) (requiresWrite : bool)
  : M (option ClientRef) :=
  match userConfig with
  | Some uc => getUserClient uc
  | None =>
      if requiresWrite then throw (Error msg_write_requires_user)
      else
        do st ← get;
        let authMode := Config.authMode (config st) in
        if bool_decide (is_Some (baseClient st))
           && negb (bool_decide (authMode = per_user))
        then ret (baseClient st)
        else if bool_decide (authMode = per_user)
                || bool_decide (authMode = hybrid)
        then throw (Error msg_requires_user)
        else throw (Error msg_no_auth)
  end.

(** ** Vocabulary of the properties *)

(** The identity of a user credential: effective endpoint and token. *)
Definition identity (cfg : Config.t) (uc : UserConfig.t) : string * string :=
  (effectiveUrl cfg uc, UserConfig.accessToken uc).

(** The key [getUserClient] files a credential of a given identity under. *)
Definition key_of (i : string * string) : string := i.1 +:+ ":" +:+ i.2.

(** ASCII lower case of one character. *)
Definition lower (c : ascii) : ascii :=
  let n := nat_of_ascii c in
  if (65 <=? n) && (n <=? 90) then ascii_of_nat (n + 32) else c.

(** A message names a reason when it begins with the words of the reason,
    letter case apart. *)
Fixpoint names_reason (reason msg : string) : bool :=
  match reason, msg with
  | EmptyString, _ => true
  | String a reason, String b msg =>
      Ascii.eqb (lower a) (lower b) && names_reason reason msg
  | String _ _, EmptyString => false
  end.

(** The number of [GraphQLClient] objects a computation allocates. *)
Definition allocated (before after : State) : nat :=
  length (store after) - length (store before).

(** [later] is a state the object may reach from [earlier]: the configuration
    and the shared client stay, the cache and the store only grow, a stored
    schema stays. *)
Record extends (earlier later : State) : Prop := {
  ext_config : config later = config earlier;
  ext_base : baseClient later = baseClient earlier;
  ext_users : userClients earlier ⊆ userClients later;
  ext_store : store earlier `prefix_of` store later;
  ext_sent : sent earlier `prefix_of` sent later;
  ext_schema : ∀ s, schema earlier = Some s → schema later = Some s
}.

(** Every reference the object holds names an allocated client, the cached
    user clients are pairwise distinct objects, and none of them is the shared
    client. *)
Record wf (st : State) : Prop := {
  wf_base : ∀ b, baseClient st = Some b → b < length (store st);
  wf_user : ∀ k r, userClients st !! k = Some r →
            r < length (store st) ∧ baseClient st ≠ Some r;
  wf_inj : ∀ k1 k2 r, userClients st !! k1 = Some r →
           userClients st !! k2 = Some r → k1 = k2
}.

(** The same object under another policy: another mode, another shared client. *)
Definition with_policy (mode : AuthMode) (b : option ClientRef) (st : State)
  : State :=
  {| baseClient := b;
     config :=
       {| Config.gitlabUrl := Config.gitlabUrl (config st);
          Config.sharedAccessToken := Config.sharedAccessToken (config st);
          Config.maxPageSize := Config.maxPageSize (config st);
          Config.defaultTimeout := Config.defaultTimeout (config st);
          Config.authMode := mode |};
     schema := schema st; userClients := userClients st; store := store st;
     sent := sent st |}.

(** The two kinds of error the router is specified to tell apart. *)
Inductive ErrorKind := AuthorizationError | RequestError.

(** [getUserClient] for each credential of a list, in order. *)
Fixpoint getUserClients (ucs : list UserConfig.t) (st : State) : State :=
  match ucs with
  | [] => st
  | uc :: ucs => getUserClients ucs (snd (getUserClient uc st))
  end.

(** ** Sample inputs *)

Definition cfg_hybrid_shared : Config.t :=
  Config.mk "https://gitlab.com" (Some "shared-token") 50 30000 hybrid.

Definition cfg_per_user : Config.t :=
  Config.mk "https://gitlab.com" None 50 30000 per_user.

Definition cfg_shared_only : Config.t :=
  Config.mk "https://gitlab.com" None 50 30000 shared.

Definition cfg_hybrid_only : Config.t :=
  Config.mk "https://gitlab.com" None 50 30000 hybrid.

Definition cfg_per_user_shared : Config.t :=
  Config.mk "https://gitlab.com" (Some "shared-token") 50 30000 per_user.

Definition cfg_shared_shared : Config.t :=
  Config.mk "https://gitlab.com" (Some "shared-token") 50 30000 shared.

Definition cred_T : UserConfig.t := UserConfig.mk "T" None.

Definition cred_T_explicit : UserConfig.t :=
  UserConfig.mk "T" (Some "https://gitlab.com").

Definition cred_port_in_token : UserConfig.t :=
  UserConfig.mk "80:t" (Some "https://gitlab.example.com").

Definition cred_port_in_url : UserConfig.t :=
  UserConfig.mk "t" (Some "https://gitlab.example.com:80").

Definition sample_schema : GraphQLSchema :=
  {| getQueryType := Some ["currentUser"; "project"; "projects"];
     getMutationType := Some ["createIssue"; "createMergeRequest"] |}.

Definition sample_doc : string := "query IntrospectionQuery { __schema { types { name } } }".

Definition sample_build (payload : string) : Outcome GraphQLSchema :=
  if truthy payload then Returns sample_schema
  else Throws (Error "Invalid or incomplete introspection result.").

Section Transport.

(** The payload type of a decoded response, the text of graphql's
    [getIntrospectionQuery()] and its [buildClientSchema], which throws on a
    malformed introspection result: all three belong to the libraries. *)
Variable Response : Type.
Variable getIntrospectionQuery : string.
Variable buildClientSchema : Response → Outcome GraphQLSchema.

Definition msg_undefined_request : string :=
  "TypeError: Cannot read properties of undefined (reading 'request')".

(** [await client.request(document, variables)].  The call is recorded with
    its client and ends the way [reply] says: with the reply of the remote
    side, or with whatever the library or the transport throws, be it before
    or after anything has left the process.  On [undefined] it is a
    [TypeError], and nothing is recorded. *)
Definition request (client : option ClientRef) (req : Request)
    (reply : Outcome Response) : M Response :=
  match client with
  | None => throw (Foreign msg_undefined_request)
  | Some r =>
      run modify (λ st, set_sent (sent st ++ [(r, req)]) st);
      match reply with
      | Returns a => ret a
      | Throws e => throw e
      end
  end.

Definition lift_outcome {A} (o : Outcome A) : M A :=
  match o with Returns a => ret a | Throws e => throw e end.

Definition introspectSchema (userConfig : option UserConfig.t)
    (reply : Outcome Response) : M unit :=
  do st ← get;
  match schema st with
  | Some _ => ret tt
  | None =>
      try_catch
        (do client ← getClient userConfig false;
         do introspectionResult ←
           request client
             {| document := getIntrospectionQuery; variables := None |} reply;
         do built ← lift_outcome (buildClientSchema introspectionResult);
         modify (set_schema (Some built)))
        (λ error,
          throw (Error ("Failed to introspect GitLab GraphQL schema: "
                        +:+ to_string error)))
  end.

Definition query (query : string) (variables : option string)
    (userConfig : option UserConfig.t) (requiresWrite : bool)
    (reply : Outcome Response) : M Response :=
  try_catch
    (do client ← getClient userConfig requiresWrite;
     request client {| document := query; variables := variables |} reply)
    (λ error, throw (Error ("GraphQL query failed: " +:+ to_string error))).

(** ** Executions

    Every other public method of the class ([getCurrentUser], [getProject],
    [createIssue], ...) is one call of [query] on a fixed document.  The two
    private methods are calls of their own here, so that an execution may
    interleave them freely with the public ones.  Calls run one after the
    other, each awaited to its end. *)
Inductive Call :=
  | call_getUserClient (userConfig : UserConfig.t)
  | call_getClient (userConfig : option UserConfig.t) (requiresWrite : bool)
  | call_introspectSchema (userConfig : option UserConfig.t)
      (reply : Outcome Response)
  | call_query (doc : string) (variables : option string)
      (userConfig : option UserConfig.t) (requiresWrite : bool)
      (reply : Outcome Response).

Definition step (c : Call) (st : State) : State :=
  match c with
  | call_getUserClient uc => snd (getUserClient uc st)
  | call_getClient uc w => snd (getClient uc w st)
  | call_introspectSchema uc reply => snd (introspectSchema uc reply st)
  | call_query q v uc w reply => snd (query q v uc w reply st)
  end.

Fixpoint exec (calls : list Call) (st : State) : State :=
  match calls with
  | [] => st
  | c :: calls => exec calls (step c st)
  end.

(** The user credential a call carries, if any. *)
Definition credential_of (c : Call) : option UserConfig.t :=
  match c with
  | call_getUserClient uc => Some uc
  | call_getClient uc _ => uc
  | call_introspectSchema uc _ => uc
  | call_query _ _ uc _ _ => uc
  end.

(** The clients allocated, over a run of [calls], by the calls that carry a
    credential of identity [i]. *)
Fixpoint constructed_for (i : string * string) (calls : list Call)
    (st : State) : nat :=
  match calls with
  | [] => 0
  | c :: calls =>
      (if bool_decide (identity (config st) <$> credential_of c = Some i)
       then allocated st (step c st) else 0)
      + constructed_for i calls (step c st)
  end.

(** Calls of [introspectSchema] one after the other, each awaited before the
    next starts.  Calls that overlap are events of [run_events] below. *)
Fixpoint introspect_all
    (calls : list (option UserConfig.t * Outcome Response)) (st : State)
  : list (Outcome unit) * State :=
  match calls with
  | [] => ([], st)
  | (uc, reply) :: calls =>
      let '(o, st') := introspectSchema uc reply st in
      let '(os, st'') := introspect_all calls st' in
      (o :: os, st'')
  end.

End Transport.

Arguments request {Response} client req reply _.
Arguments introspectSchema {Response} getIntrospectionQuery buildClientSchema
  userConfig reply _.
Arguments query {Response} query variables userConfig requiresWrite reply _.
Arguments call_getUserClient {Response} userConfig.
Arguments call_getClient {Response} userConfig requiresWrite.
Arguments call_introspectSchema {Response} userConfig reply.
Arguments call_query {Response} doc variables userConfig requiresWrite reply.
Arguments step {Response} getIntrospectionQuery buildClientSchema c st.
Arguments exec {Response} getIntrospectionQuery buildClientSchema calls st.
Arguments credential_of {Response} c.
Arguments constructed_for {Response} getIntrospectionQuery buildClientSchema
  i calls st.
Arguments introspect_all {Response} getIntrospectionQuery buildClientSchema
  calls st.
Arguments getUserClient : simpl never.
Arguments getClient : simpl never.
Arguments introspectSchema : simpl never.
Arguments query : simpl never.

(** ** Read-only views *)

Definition getSchema (st : State) : option GraphQLSchema := schema st.

Definition getAvailableQueries (st : State) : list string :=
  match schema st with
  | None => []
  | Some s =>
      match getQueryType s with
      | None => []
      | Some fields => fields
      end
  end.

Definition getAvailableMutations (st : State) : list string :=
  match schema st with
  | None => []
  | Some s =>
      match getMutationType s with
      | None => []
      | Some fields => fields
      end
  end.

(** ** Further vocabulary *)

(** Whether a string holds a colon. *)
Fixpoint has_colon (s : string) : bool :=
  match s with
  | EmptyString => false
  | String c s => Ascii.eqb c ":"%char || has_colon s
  end.

(** The object [createClient] allocates for an endpoint and a token. *)
Definition client_for (gitlabUrl accessToken : string) : GraphQLClient :=
  {| endpoint := strip_trailing_slash gitlabUrl +:+ "/api/graphql";
     headers := [("Authorization", "Bearer " +:+ accessToken);
                 ("Content-Type", "application/json")] |}.

(** Whether the token of the credential a call carries, if any, is free of
    colons. *)
Definition colon_free_call {Response : Type} (c : Call Response) : bool :=
  match credential_of c with
  | Some uc => negb (has_colon (UserConfig.accessToken uc))
  | None => true
  end.

(** Whether a call is one of [introspectSchema]. *)
Definition is_introspection {Response : Type} (c : Call Response) : bool :=
  match c with
  | call_introspectSchema _ _ => true
  | _ => false
  end.

(** Every request sent went through an allocated client: the shared one,
    outside per-user mode, or a cached user client. *)
Definition routed (st : State) : Prop :=
  ∀ r req, (r, req) ∈ sent st →
    r < length (store st)
    ∧ ((baseClient st = Some r ∧ Config.authMode (config st) ≠ per_user)
       ∨ ∃ k, userClients st !! k = Some r).

(** The store holds one client per key of the cache, and the shared client
    when there is one. *)
Definition accounted (st : State) : Prop :=
  length (store st)
  = size (userClients st)
    + match baseClient st with Some _ => 1 | None => 0 end.

(** Every cached client was built for an endpoint and a colon-free token
    that make up its key. *)
Definition bound (st : State) : Prop :=
  ∀ k r, userClients st !! k = Some r →
    ∃ u t, has_colon t = false ∧ k = key_of (u, t)
           ∧ store st !! r = Some (client_for u t).

(** * Around the class: configuration, methods on fixed documents, tools,
      start-up *)

(** ** Values of type [any] *)

(** Numbers are integers here: the code below compares them with bounds, tests
    them for truth and passes them on, nothing more. *)
#[local] Set Warnings "-register-all".
Inductive JsValue :=
  | JUndefined
  | JNull
  | JBool (b : bool)
  | JNumber (n : Z)
  | JString (s : string)
  | JArray (items : list JsValue)
  | JObject (props : list (string * JsValue)).

(** [if (v)] *)
Definition js_truthy (v : JsValue) : bool :=
  match v with
  | JUndefined | JNull => false
  | JBool b => b
  | JNumber n => negb (n =? 0)%Z
  | JString s => truthy s
  | JArray _ | JObject _ => true
  end.

(** [o.key] on an object, given as its list of properties, keys pairwise
    distinct: [undefined] when the key is missing. *)
Fixpoint prop (key : string) (props : list (string * JsValue)) : JsValue :=
  match props with
  | [] => JUndefined
  | (k, v) :: props => if String.eqb k key then v else prop key props
  end.

(** An optional string as a value: [undefined] when absent. *)
Definition js_opt (a : option string) : JsValue :=
  match a with Some s => JString s | None => JUndefined end.

(** The input of [execute_custom_query], after its schema. *)
Record CustomQueryInput := {
  cq_query : string;
  cq_variables : option JsValue;
  cq_requiresWrite : bool;
  cq_userCredentials : JsValue
}.

(** What [run] leaves behind: a server on its transport, holding the client
    object, or a process that has exited. *)
Inductive Process :=
  | Running (gitlabClient : State)
  | Exited (code : Z).

Section Surroundings.

Variable Response : Type.
Variable getIntrospectionQuery : string.
Variable buildClientSchema : Response → Outcome GraphQLSchema.

(** zod's test behind [z.string().url()], the error it throws for the fields
    that fail, and JavaScript's [parseInt], [None] standing for [NaN]. *)
Variable is_url : string → bool.
Variable ZodError : list string → Thrown.
Variable parseInt : string → option Z.

(** The variables of a request as the transport carries them. *)
Variable encode : JsValue → string.

(** The documents of the methods modelled below. *)
Variable mutation_createIssue : string.
Variable mutation_createMergeRequest : string.
Variable query_globalSearch : string.
Variable query_searchRepositoryFiles : string.
Variable query_getFileContent : string.

(** ** src/config.ts *)

(** [ConfigSchema.parse] on the object [loadConfig] assembles; every field of
    it is defined, so no default of the schema applies. *)
Definition ConfigSchema_parse (gitlabUrl : string)
    (sharedAccessToken : option string) (maxPageSize defaultTimeout : option Z)
    (authMode : string) : Outcome Config.t :=
  let mode :=
    if String.eqb authMode "shared" then Some shared
    else if String.eqb authMode "per-user" then Some per_user
    else if String.eqb authMode "hybrid" then Some hybrid
    else None in
  let issues :=
    (if is_url gitlabUrl then [] else ["gitlabUrl"])
    ++ match maxPageSize with
       | Some n => if (1 <=? n)%Z && (n <=? 100)%Z then [] else ["maxPageSize"]
       | None => ["maxPageSize"]
       end
    ++ match defaultTimeout with
       | Some n => if (1000 <=? n)%Z then [] else ["defaultTimeout"]
       | None => ["defaultTimeout"]
       end
    ++ match mode with Some _ => [] | None => ["authMode"] end in
  match issues, maxPageSize, defaultTimeout, mode with
  | [], Some pageSize, Some timeout, Some mode =>
      Returns (Config.mk gitlabUrl sharedAccessToken pageSize timeout mode)
  | _, _, _, _ => Throws (ZodError issues)
  end.

(** [process.env] is a map from names to strings. *)
Definition loadConfig (env : gmap string string) : Outcome Config.t :=
  ConfigSchema_parse
    (or_else (env !! "GITLAB_URL") "https://gitlab.com")
    (match env !! "GITLAB_SHARED_ACCESS_TOKEN" with
     | Some s => if truthy s then Some s else None
     | None => None
     end)
    (parseInt (or_else (env !! "GITLAB_MAX_PAGE_SIZE") "50"))
    (parseInt (or_else (env !! "GITLAB_TIMEOUT") "30000"))
    (or_else (env !! "GITLAB_AUTH_MODE") "hybrid").

(** [UserConfigSchema.parse(userCredentials)] *)
Definition validateUserConfig (userCredentials : JsValue)
  : Outcome UserConfig.t :=
  match userCredentials with
  | JObject props =>
      let token :=
        match prop "accessToken" props with
        | JString s => if truthy s then Some s else None
        | _ => None
        end in
      let url :=
        match prop "gitlabUrl" props with
        | JUndefined => Some None
        | JString u => if is_url u then Some (Some u) else None
        | _ => None
        end in
      match token, url with
      | Some token, Some url => Returns (UserConfig.mk token url)
      | _, _ =>
          Throws (ZodError
                    (match token with Some _ => [] | None => ["accessToken"] end
                     ++ match url with Some _ => [] | None => ["gitlabUrl"] end))
      end
  | _ => Throws (ZodError [""])
  end.

(** ** Methods of the class on fixed documents *)

Definition createIssue (projectPath title : string)
    (description : option string) (userConfig : option UserConfig.t)
    (reply : Outcome Response) : M Response :=
  let input :=
    JObject [("projectPath", JString projectPath); ("title", JString title);
             ("description", js_opt description)] in
  query mutation_createIssue
    (Some (encode (JObject [("input", input)]))) userConfig true reply.

Definition createMergeRequest (projectPath title sourceBranch
    targetBranch : string) (description : option string)
    (userConfig : option UserConfig.t) (reply : Outcome Response)
  : M Response :=
  let input :=
    JObject [("projectPath", JString projectPath); ("title", JString title);
             ("sourceBranch", JString sourceBranch);
             ("targetBranch", JString targetBranch);
             ("description", js_opt description)] in
  query mutation_createMergeRequest
    (Some (encode (JObject [("input", input)]))) userConfig true reply.

Definition globalSearch (searchTerm : string) (scope : option string)
    (userConfig : option UserConfig.t) (reply : Outcome Response)
  : M Response :=
  do st ← get;
  query query_globalSearch
    (Some (encode (JObject
       [("search", JString searchTerm);
        ("first", JNumber (Config.maxPageSize (config st)))])))
    userConfig false reply.

Definition searchRepositoryFiles (projectPath searchTerm : string)
    (ref : option string) (userConfig : option UserConfig.t)
    (reply : Outcome Response) : M Response :=
  query query_searchRepositoryFiles
    (Some (encode (JObject
       [("projectPath", JString projectPath); ("path", JString "");
        ("ref", JString (or_else ref "HEAD"))])))
    userConfig false reply.

Definition getFileContent (projectPath filePath : string)
    (ref : option string) (userConfig : option UserConfig.t)
    (reply : Outcome Response) : M Response :=
  query query_getFileContent
    (Some (encode (JObject
       [("projectPath", JString projectPath); ("path", JString filePath);
        ("ref", JString (or_else ref "HEAD"))])))
    userConfig false reply.

(** ** Tool handlers (tools.ts) *)

(** The first line of every handler:
    [input.userCredentials ? validateUserConfig(input.userCredentials)
                           : userConfig]. *)
Definition credentials_of (userCredentials : JsValue)
    (userConfig : option UserConfig.t) : M (option UserConfig.t) :=
  if js_truthy userCredentials then
    match validateUserConfig userCredentials with
    | Returns uc => ret (Some uc)
    | Throws e => throw e
    end
  else ret userConfig.

Definition msg_custom_write_requires_user : string :=
  "User authentication is required for write operations. Please provide your GitLab credentials.".

(** The handler of [execute_custom_query]. *)
Definition executeCustomQuery_handler (input : CustomQueryInput)
    (userConfig : option UserConfig.t) (reply : Outcome Response)
  : M Response :=
  do credentials ← credentials_of (cq_userCredentials input) userConfig;
  if cq_requiresWrite input && negb (bool_decide (is_Some credentials))
  then throw (Error msg_custom_write_requires_user)
  else
    query (cq_query input) (encode <$> cq_variables input)
      credentials (cq_requiresWrite input) reply.

(** The handler of [get_available_queries]; its result is the object
    [{ queries, mutations }]. *)
Definition getAvailableQueries_handler (userCredentials : JsValue)
    (userConfig : option UserConfig.t) (reply : Outcome Response)
  : M (list string * list string) :=
  do credentials ← credentials_of userCredentials userConfig;
  run introspectSchema getIntrospectionQuery buildClientSchema
        credentials reply;
  do st ← get;
  ret (getAvailableQueries st, getAvailableMutations st).

(** ** Start-up (index.ts) *)

(** [run()]: the configuration is loaded, the client object built, the schema
    introspected with the shared token when there is one, a failure of which
    is only reported, and the server connected to its transport, which ends
    the way [connect] says.  The second component is what [console.error] was
    given first, line by line. *)
Definition run_server (env : gmap string string) (reply : Outcome Response)
    (connect : Outcome unit) : Process * list string :=
  match loadConfig env with
  | Throws _ => (Exited 1, ["Failed to start server:"])
  | Returns cfg =>
      let gitlabClient := constructor cfg in
      let '(gitlabClient, log) :=
        if truthy_opt (Config.sharedAccessToken cfg) then
          match introspectSchema getIntrospectionQuery
                  buildClientSchema None reply gitlabClient with
          | (Returns _, st) =>
              (st, ["GitLab GraphQL schema introspected successfully using shared token"])
          | (Throws _, st) =>
              (st, ["Warning: Failed to introspect schema with shared token:";
                    "Schema will be introspected when user credentials are provided"])
          end
        else
          (gitlabClient,
           ["No shared access token provided. Schema will be introspected when user credentials are provided."])
      in
      match connect with
      | Returns _ =>
          (Running gitlabClient, log ++ ["GitLab MCP Server running on stdio"])
      | Throws _ => (Exited 1, log ++ ["Failed to start server:"])
      end
  end.

End Surroundings.

Arguments createIssue {Response} encode mutation_createIssue projectPath title
  description userConfig reply _.
Arguments createMergeRequest {Response} encode mutation_createMergeRequest
  projectPath title sourceBranch targetBranch description userConfig reply _.
Arguments globalSearch {Response} encode query_globalSearch searchTerm scope
  userConfig reply _.
Arguments searchRepositoryFiles {Response} encode query_searchRepositoryFiles
  projectPath searchTerm ref userConfig reply _.
Arguments getFileContent {Response} encode query_getFileContent projectPath
  filePath ref userConfig reply _.
Arguments executeCustomQuery_handler {Response} is_url ZodError encode input
  userConfig reply _.
Arguments getAvailableQueries_handler {Response} getIntrospectionQuery
  buildClientSchema is_url ZodError userCredentials userConfig reply _.
Arguments run_server {Response} getIntrospectionQuery buildClientSchema is_url
  ZodError parseInt env reply connect.

(** ** Sample surroundings *)

Definition sample_is_url (s : string) : bool :=
  String.prefix "https://" s || String.prefix "http://" s.

Definition sample_ZodError (issues : list string) : Thrown :=
  Foreign ("ZodError: " +:+ String.concat ", " issues).

Fixpoint sample_digits (s : string) (acc : Z) : option Z :=
  match s with
  | EmptyString => Some acc
  | String c s =>
      let n := Z.of_nat (nat_of_ascii c) in
      if (48 <=? n)%Z && (n <=? 57)%Z
      then sample_digits s (10 * acc + (n - 48))
      else None
  end.

Definition sample_parseInt (s : string) : option Z :=
  if truthy s then sample_digits s 0 else None.

Definition sample_encode (v : JsValue) : string :=
  match v with
  | JObject props => "{" +:+ String.concat "," (fst <$> props) +:+ "}"
  | _ => "?"
  end.

Definition sample_env : gmap string string :=
  {[ "GITLAB_SHARED_ACCESS_TOKEN" := "shared-token";
     "GITLAB_MAX_PAGE_SIZE" := "25";
     "GITLAB_AUTH_MODE" := "" ]}.

Definition sample_raw_credentials : JsValue :=
  JObject [("accessToken", JString "T");
           ("gitlabUrl", JString "https://gitlab.example.com")].

Definition sample_bad_credentials : JsValue :=
  JObject [("accessToken", JString ""); ("gitlabUrl", JString "gitlab")].

(** * [introspectSchema] at its [await]

    [introspectSchema] tests [this.schema], resolves a client and calls
    [request], then suspends; the assignment to [this.schema] runs when the
    reply has come.  Other calls may run in between. *)

(** How a call stands when it first gives up control. *)
Inductive Started :=
  | Settled (o : Outcome unit)
  | Awaiting (client : ClientRef).

(** What happens from outside: a caller calls [introspectSchema], or the reply
    to the [i]-th call still awaiting one arrives. *)
Inductive Event (Response : Type) :=
  | ev_call (userConfig : option UserConfig.t)
  | ev_reply (i : nat) (reply : Outcome Response).
Arguments ev_call {Response} userConfig.
Arguments ev_reply {Response} i reply.

Definition is_call {Response : Type} (e : Event Response) : bool :=
  match e with ev_call _ => true | ev_reply _ _ => false end.

(** The object, the calls awaiting their reply, oldest first, each with the
    client it called [request] on, and the outcomes of the calls settled so
    far. *)
Record World := {
  object : State;
  in_flight : list ClientRef;
  settled : list (Outcome unit)
}.

Section Suspension.

Variable Response : Type.
Variable getIntrospectionQuery : string.
Variable buildClientSchema : Response → Outcome GraphQLSchema.

Definition introspection_failed (error : Thrown) : Thrown :=
  Error ("Failed to introspect GitLab GraphQL schema: " +:+ to_string error).

(** From the call up to [await client.request(...)]. *)
Definition introspectSchema_begin (userConfig : option UserConfig.t)
    (st : State) : Started * State :=
  match schema st with
  | Some _ => (Settled (Returns tt), st)
  | None =>
      match getClient userConfig false st with
      | (Throws error, st') =>
          (Settled (Throws (introspection_failed error)), st')
      | (Returns None, st') =>
          (Settled (Throws (introspection_failed
                              (Foreign msg_undefined_request))), st')
      | (Returns (Some r), st') =>
          (Awaiting r,
           set_sent
             (sent st' ++ [(r, {| document := getIntrospectionQuery;
                                  variables := None |})]) st')
      end
  end.

(** From the reply on: [this.schema = buildClientSchema(result)], or the
    [catch]. *)
Definition introspectSchema_resume (reply : Outcome Response) (st : State)
  : Outcome unit * State :=
  match reply with
  | Throws error => (Throws (introspection_failed error), st)
  | Returns introspectionResult =>
      match buildClientSchema introspectionResult with
      | Returns built => (Returns tt, set_schema (Some built) st)
      | Throws error => (Throws (introspection_failed error), st)
      end
  end.

(** One event.  A reply for a call that is not awaiting one changes
    nothing. *)
Definition event_step (e : Event Response) (w : World) : World :=
  match e with
  | ev_call userConfig =>
      match introspectSchema_begin userConfig (object w) with
      | (Settled o, st) =>
          {| object := st; in_flight := in_flight w;
             settled := settled w ++ [o] |}
      | (Awaiting r, st) =>
          {| object := st; in_flight := in_flight w ++ [r];
             settled := settled w |}
      end
  | ev_reply i reply =>
      match in_flight w !! i with
      | None => w
      | Some _ =>
          let '(o, st) := introspectSchema_resume reply (object w) in
          {| object := st; in_flight := delete i (in_flight w);
             settled := settled w ++ [o] |}
      end
  end.

Fixpoint run_events (events : list (Event Response)) (w : World) : World :=
  match events with
  | [] => w
  | e :: events => run_events events (event_step e w)
  end.

End Suspension.

Arguments introspectSchema_resume {Response} buildClientSchema reply st.
Arguments event_step {Response} getIntrospectionQuery buildClientSchema e w.
Arguments run_events {Response} getIntrospectionQuery buildClientSchema
  events w.

(** A world in which nothing is awaited and nothing has settled yet. *)
Definition quiet (st : State) : World :=
  {| object := st; in_flight := []; settled := [] |}.

(** A builder that tells replies apart: the schema it builds has the payload
    as its one query field. *)
Definition sample_build_named (payload : string) : Outcome GraphQLSchema :=
  Returns {| getQueryType := Some [payload]; getMutationType := None |}.

(** * Properties *)

(** ** The client cache, one call at a time *)

Lemma getUserClient_hit uc st r :
  userClients st !! userKey (config st) uc = Some r →
  getUserClient uc st = (Returns (Some r), st).
Proof.
  intros Hk. unfold getUserClient, bind, get, ret. cbn.
  rewrite bool_decide_eq_true_2 by (rewrite Hk; eauto). cbn.
  by rewrite Hk.
Qed.

Lemma getUserClient_miss uc st :
  userClients st !! userKey (config st) uc = None →
  getUserClient uc st =
    (Returns (Some (length (store st))),
     {| baseClient := baseClient st; config := config st; schema := schema st;
        userClients :=
          <[userKey (config st) uc := length (store st)]> (userClients st);
        store := store st ++
          [{| endpoint :=
                strip_trailing_slash (effectiveUrl (config st) uc)
                +:+ "/api/graphql";
              headers :=
                [("Authorization", "Bearer " +:+ UserConfig.accessToken uc);
                 ("Content-Type", "application/json")] |}];
        sent := sent st |}).
Proof.
  intros Hk. unfold getUserClient, bind, get, ret. cbn.
  rewrite bool_decide_eq_false_2 by (rewrite Hk; intros [? ?]; done). cbn.
  by rewrite lookup_insert_eq.
Qed.

#[global] Instance extends_preorder : PreOrder extends.
Proof.
  split.
  - intros st. by split.
  - intros a b c [] []. split; try congruence; try (by etrans); eauto.
Qed.

Lemma getUserClient_extends uc st : extends st (snd (getUserClient uc st)).
Proof.
  destruct (userClients st !! userKey (config st) uc) as [r|] eqn:Hk.
  - by rewrite (getUserClient_hit _ _ _ Hk).
  - rewrite (getUserClient_miss _ _ Hk). split; cbn; try done.
    + by apply insert_subseteq.
    + by apply prefix_app_r.
Qed.

Lemma getUserClient_wf uc st : wf st → wf (snd (getUserClient uc st)).
Proof.
  intros [Hb Hu Hi].
  destruct (userClients st !! userKey (config st) uc) as [r|] eqn:Hk.
  - by rewrite (getUserClient_hit _ _ _ Hk).
  - rewrite (getUserClient_miss _ _ Hk). split; cbn.
    + intros b Hbb. rewrite length_app. cbn. specialize (Hb _ Hbb). lia.
    + intros k r. rewrite length_app. cbn. rewrite lookup_insert.
      case_decide; intros Hr; simplify_eq.
      * split; [lia|]. intros Hbb. specialize (Hb _ Hbb). lia.
      * destruct (Hu _ _ Hr). split; [lia|done].
    + intros k1 k2 r. rewrite !lookup_insert.
      repeat case_decide; intros H1 H2; simplify_eq; try done.
      * destruct (Hu _ _ H2). lia.
      * destruct (Hu _ _ H1). lia.
      * eauto.
Qed.

(** [getUserClient] always hands out a client, the one filed under the key of
    the credential. *)
Lemma getUserClient_returns uc st :
  ∃ r, fst (getUserClient uc st) = Returns (Some r)
       ∧ userClients (snd (getUserClient uc st)) !! userKey (config st) uc
         = Some r.
Proof.
  destruct (userClients st !! userKey (config st) uc) as [r|] eqn:Hk.
  - rewrite (getUserClient_hit _ _ _ Hk). eauto.
  - rewrite (getUserClient_miss _ _ Hk). cbn.
    eexists. split; [done|]. by rewrite lookup_insert_eq.
Qed.

(** ** The policy, one call at a time *)

Lemma getClient_user uc w st : getClient (Some uc) w st = getUserClient uc st.
Proof. done. Qed.

Lemma getClient_anonymous_state w st : snd (getClient None w st) = st.
Proof.
  unfold getClient, bind, get, ret, throw.
  destruct w; [done|]. cbn.
  by repeat case_match.
Qed.

Lemma getClient_extends uc w st : extends st (snd (getClient uc w st)).
Proof.
  destruct uc as [uc|].
  - apply getUserClient_extends.
  - by rewrite getClient_anonymous_state.
Qed.

Lemma getClient_wf uc w st : wf st → wf (snd (getClient uc w st)).
Proof.
  destruct uc as [uc|].
  - apply getUserClient_wf.
  - by rewrite getClient_anonymous_state.
Qed.

(** What [getClient] returns is never [undefined]. *)
Lemma getClient_defined uc w st c :
  fst (getClient uc w st) = Returns c → is_Some c.
Proof.
  destruct uc as [uc|].
  - destruct (getUserClient_returns uc st) as (r & Hr & _).
    rewrite getClient_user, Hr. intros [= <-]. eauto.
  - unfold getClient, bind, get, ret, throw.
    destruct w; [done|]. cbn.
    destruct (baseClient st) as [b|]; repeat case_match; cbn; try done.
    intros [= <-]. eauto.
Qed.

Section Runs.

Context {Response : Type}.
Variable doc : string.
Variable build : Response → Outcome GraphQLSchema.

Lemma request_extends c req (reply : Outcome Response) st :
  extends st (snd (request c req reply st)).
Proof.
  destruct c as [r|]; [|done].
  unfold request, bind, modify, ret, throw. cbn.
  destruct reply; cbn; (split; cbn; try done; by apply prefix_app_r).
Qed.

Lemma request_wf c req (reply : Outcome Response) st :
  wf st → wf (snd (request c req reply st)).
Proof.
  intros [Hb Hu Hi]. destruct c as [r|]; [|done].
  unfold request, bind, modify, ret, throw. cbn.
  destruct reply; cbn; by split.
Qed.

Lemma query_state q v uc w (reply : Outcome Response) st :
  snd (query q v uc w reply st) =
    match getClient uc w st with
    | (Returns c, st') =>
        snd (request c {| document := q; variables := v |} reply st')
    | (Throws _, st') => st'
    end.
Proof.
  unfold query, try_catch, bind, throw.
  destruct (getClient uc w st) as [[c|e] st']; cbn; [|done].
  by destruct (request _ _ _ _) as [[?|?] ?].
Qed.

Lemma introspectSchema_state uc (reply : Outcome Response) st :
  snd (introspectSchema doc build uc reply st) =
    match schema st with
    | Some _ => st
    | None =>
        match getClient uc false st with
        | (Returns c, st') =>
            let st'' :=
              snd (request c {| document := doc; variables := None |}
                     reply st') in
            match c, reply with
            | Some _, Returns a =>
                match build a with
                | Returns s => set_schema (Some s) st''
                | Throws _ => st''
                end
            | _, _ => st''
            end
        | (Throws _, st') => st'
        end
    end.
Proof.
  unfold introspectSchema, try_catch, bind, throw, get, ret. cbn.
  destruct (schema st); [done|].
  destruct (getClient uc false st) as [[c|e] st']; cbn; [|done].
  destruct c as [r|]; cbn; [|done].
  destruct reply as [a|e]; cbn; [|done].
  by destruct (build a).
Qed.

Lemma set_schema_extends s st : schema st = None → extends st (set_schema s st).
Proof. intros Hs. split; cbn; try done. intros ?. by rewrite Hs. Qed.

Lemma set_schema_wf s st : wf st → wf (set_schema s st).
Proof. intros []. by split. Qed.

Lemma query_extends q v uc w (reply : Outcome Response) st :
  extends st (snd (query q v uc w reply st)).
Proof.
  rewrite query_state. pose proof (getClient_extends uc w st) as He.
  destruct (getClient uc w st) as [[c|e] st']; cbn in *; [|done].
  etrans; [done|]. apply request_extends.
Qed.

Lemma query_wf q v uc w (reply : Outcome Response) st :
  wf st → wf (snd (query q v uc w reply st)).
Proof.
  intros Hwf. rewrite query_state.
  pose proof (getClient_wf uc w st Hwf) as Hw.
  destruct (getClient uc w st) as [[c|e] st']; cbn in *; [|done].
  by apply request_wf.
Qed.

Lemma request_schema c req (reply : Outcome Response) st :
  schema (snd (request c req reply st)) = schema st.
Proof. destruct c; [|done]. by destruct reply. Qed.

Lemma getClient_schema uc w st : schema (snd (getClient uc w st)) = schema st.
Proof.
  destruct uc as [uc|]; [|by rewrite getClient_anonymous_state].
  rewrite getClient_user.
  destruct (userClients st !! userKey (config st) uc) as [r|] eqn:Hk.
  - by rewrite (getUserClient_hit _ _ _ Hk).
  - by rewrite (getUserClient_miss _ _ Hk).
Qed.

Lemma introspectSchema_extends uc (reply : Outcome Response) st :
  extends st (snd (introspectSchema doc build uc reply st)).
Proof.
  rewrite introspectSchema_state.
  destruct (schema st) eqn:Hs; [done|].
  pose proof (getClient_extends uc false st) as He.
  pose proof (getClient_schema uc false st) as Hs'.
  destruct (getClient uc false st) as [[c|e] st']; cbn in *; [|done].
  etrans; [done|].
  pose proof (request_extends c {| document := doc; variables := None |}
                reply st') as Hr.
  destruct c as [r|]; [|done].
  destruct reply as [a|e]; [|done].
  destruct (build a); [|done].
  etrans; [done|]. apply set_schema_extends.
  rewrite request_schema. congruence.
Qed.

Lemma introspectSchema_wf uc (reply : Outcome Response) st :
  wf st → wf (snd (introspectSchema doc build uc reply st)).
Proof.
  intros Hwf. rewrite introspectSchema_state.
  destruct (schema st) eqn:Hs; [done|].
  pose proof (getClient_wf uc false st Hwf) as Hw.
  destruct (getClient uc false st) as [[c|e] st']; cbn in *; [|done].
  pose proof (request_wf c {| document := doc; variables := None |}
                reply st' Hw) as Hr.
  destruct c as [r|]; [|done].
  destruct reply as [a|e]; [|done].
  destruct (build a); [|done].
  by apply set_schema_wf.
Qed.

Lemma step_extends c st : extends st (step doc build c st).
Proof.
  destruct c; unfold step.
  - apply getUserClient_extends.
  - apply getClient_extends.
  - apply introspectSchema_extends.
  - apply query_extends.
Qed.

Lemma step_wf c st : wf st → wf (step doc build c st).
Proof.
  destruct c; unfold step.
  - apply getUserClient_wf.
  - apply getClient_wf.
  - apply introspectSchema_wf.
  - apply query_wf.
Qed.

Lemma exec_extends calls st : extends st (exec doc build calls st).
Proof.
  revert st. induction calls as [|c calls IH]; intros st; cbn; [done|].
  etrans; [apply step_extends|apply IH].
Qed.

Lemma exec_wf calls st : wf st → wf (exec doc build calls st).
Proof.
  revert st. induction calls as [|c calls IH]; intros st Hwf; cbn; [done|].
  by apply IH, step_wf.
Qed.

(** ** What the constructor establishes *)

Lemma constructor_shape cfg :
  constructor cfg =
    if truthy_opt (Config.sharedAccessToken cfg) then
      {| baseClient := Some 0; config := cfg; schema := None;
         userClients := ∅;
         store :=
           [{| endpoint :=
                 strip_trailing_slash (Config.gitlabUrl cfg) +:+ "/api/graphql";
               headers :=
                 [("Authorization",
                   "Bearer " +:+ default "" (Config.sharedAccessToken cfg));
                  ("Content-Type", "application/json")] |}];
         sent := [] |}
    else fresh cfg.
Proof.
  unfold constructor, constructor_body, bind, get. cbn.
  destruct (Config.sharedAccessToken cfg) as [tok|]; cbn; [|done].
  by destruct (truthy tok).
Qed.

Lemma constructor_wf cfg : wf (constructor cfg).
Proof.
  rewrite constructor_shape.
  destruct (truthy_opt _); split; cbn; try done.
  intros b [= <-]. lia.
Qed.

Lemma reachable_wf cfg calls : wf (exec doc build calls (constructor cfg)).
Proof. apply exec_wf, constructor_wf. Qed.

(** In every execution two keys of the cache hold two distinct clients. *)
Lemma reachable_clients_distinct cfg calls k1 k2 r1 r2 :
  let st := exec doc build calls (constructor cfg) in
  userClients st !! k1 = Some r1 → userClients st !! k2 = Some r2 →
  k1 ≠ k2 → r1 ≠ r2.
Proof.
  intros st H1 H2 Hne ->. apply Hne.
  by apply (wf_inj _ (reachable_wf cfg calls) k1 k2 r2).
Qed.

Lemma reachable_config cfg calls :
  config (exec doc build calls (constructor cfg)) = cfg.
Proof.
  rewrite (ext_config _ _ (exec_extends calls _)), constructor_shape.
  by destruct (truthy_opt _).
Qed.

Lemma reachable_baseClient cfg calls :
  baseClient (exec doc build calls (constructor cfg)) =
    if truthy_opt (Config.sharedAccessToken cfg) then Some 0 else None.
Proof.
  rewrite (ext_base _ _ (exec_extends calls _)), constructor_shape.
  by destruct (truthy_opt _).
Qed.

(** ** Authentication policy *)

Lemma getClient_write_anonymous st :
  getClient None true st = (Throws (Error msg_write_requires_user), st).
Proof. done. Qed.

Lemma getUserClient_with_policy uc mode b st :
  getUserClient uc (with_policy mode b st) =
    (fst (getUserClient uc st), with_policy mode b (snd (getUserClient uc st))).
Proof.
  destruct (userClients st !! userKey (config st) uc) as [r|] eqn:Hk.
  - rewrite (getUserClient_hit _ st r Hk).
    by rewrite (getUserClient_hit _ (with_policy mode b st) r).
  - rewrite (getUserClient_miss _ st Hk).
    by rewrite (getUserClient_miss _ (with_policy mode b st)).
Qed.

(** C1. A write without a user credential is refused, in every state of the
    object (whatever the mode, with or without a shared client), by an error
    whose message names the reason "write operations require user
    authentication"; and in every execution a call of [getClient] for a write
    either throws, or returns a client cached for the user credential it was
    given, which is never the shared [baseClient]. *)
Theorem write_never_uses_shared_client :
  (∀ st, getClient None true st = (Throws (Error msg_write_requires_user), st))
  ∧ names_reason "write operations require user authentication"
      msg_write_requires_user = true
  ∧ ∀ cfg calls userConfig,
      let st := exec doc build calls (constructor cfg) in
      match getClient userConfig true st with
      | (Throws e, _) => userConfig = None ∧ e = Error msg_write_requires_user
      | (Returns c, st') =>
          ∃ uc r, userConfig = Some uc ∧ c = Some r
                  ∧ userClients st' !! userKey cfg uc = Some r
                  ∧ baseClient st' ≠ Some r
      end.
Proof.
  split; [apply getClient_write_anonymous|]. split; [done|].
  intros cfg calls [uc|] st; [|done].
  rewrite getClient_user.
  destruct (getUserClient_returns uc st) as (r & Hr & Hk).
  pose proof (getUserClient_wf uc st (reachable_wf cfg calls)) as Hwf.
  subst st. rewrite reachable_config in Hk.
  destruct (getUserClient uc _) as [o st']; cbn in *. subst o.
  exists uc, r. repeat split; try done.
  by destruct (wf_user _ Hwf _ _ Hk).
Qed.

(** The policy on a credential supplied: [getClient] is [getUserClient] on
    that credential.  It returns the client cached under the credential's key,
    never throws and never returns the shared client; the client returned is
    the same for reads and writes, under every mode and whether or not a
    shared client exists.  Which client the cache holds under that key is
    another matter: see [user_credential_can_be_served_anothers_client] and
    [credential_is_served_its_own_client]. *)
Theorem user_credential_takes_precedence cfg calls uc requiresWrite :
  let st := exec doc build calls (constructor cfg) in
  getClient (Some uc) requiresWrite st = getUserClient uc st
  ∧ (∃ r, fst (getClient (Some uc) requiresWrite st) = Returns (Some r)
          ∧ userClients (snd (getClient (Some uc) requiresWrite st))
              !! userKey cfg uc = Some r
          ∧ baseClient (snd (getClient (Some uc) requiresWrite st)) ≠ Some r)
  ∧ ∀ requiresWrite' mode b,
      fst (getClient (Some uc) requiresWrite' (with_policy mode b st))
      = fst (getClient (Some uc) requiresWrite st).
Proof.
  intros st. split; [done|]. split.
  - rewrite getClient_user.
    destruct (getUserClient_returns uc st) as (r & Hr & Hk).
    pose proof (getUserClient_wf uc st (reachable_wf cfg calls)) as Hwf.
    subst st. rewrite reachable_config in Hk.
    exists r. repeat split; try done.
    by destruct (wf_user _ Hwf _ _ Hk).
  - intros w' mode b. by rewrite !getClient_user, getUserClient_with_policy.
Qed.

(** C3. A read without a user credential: with a shared token configured and a
    mode other than per-user, [getClient] returns the shared client; otherwise
    under per-user or hybrid it throws "this operation requires user
    authentication"; otherwise it throws "no authentication configured". *)
Theorem anonymous_read_policy cfg calls :
  let st := exec doc build calls (constructor cfg) in
  let sharedPresent := truthy_opt (Config.sharedAccessToken cfg) in
  let mode := Config.authMode cfg in
  getClient None false st =
    (if sharedPresent && negb (bool_decide (mode = per_user))
     then (Returns (Some 0), st)
     else if bool_decide (mode = per_user) || bool_decide (mode = hybrid)
     then (Throws (Error msg_requires_user), st)
     else (Throws (Error msg_no_auth), st))
  ∧ baseClient st = (if sharedPresent then Some 0 else None)
  ∧ names_reason "this operation requires user authentication"
      msg_requires_user = true
  ∧ names_reason "no authentication configured" msg_no_auth = true.
Proof.
  intros st sharedPresent mode.
  assert (baseClient st = if sharedPresent then Some 0 else None) as Hb
    by apply reachable_baseClient.
  split; [|done].
  unfold getClient, bind, get, ret, throw. cbn.
  rewrite Hb. unfold st. rewrite reachable_config. fold mode.
  destruct sharedPresent, mode; done.
Qed.

(** ** Errors of [query] *)

(** C4, as the code has it.  [query] raises one kind of error only, a plain
    [Error]: its message is "GraphQL query failed: " followed by the string
    rendering of the cause, be the cause the refusal thrown by [getClient] or
    a failure of the exchange; a reply is handed back as it came.  A write
    without a user credential therefore ends, in every state, in the error
    "GraphQL query failed: Error: Write operations require user
    authentication. Please provide your GitLab credentials.". *)
Theorem query_wraps_every_failure q v uc requiresWrite
    (reply : Outcome Response) st :
  fst (query q v uc requiresWrite reply st) =
    match fst (getClient uc requiresWrite st), reply with
    | Throws refusal, _ =>
        Throws (Error ("GraphQL query failed: " +:+ to_string refusal))
    | Returns _, Throws cause =>
        Throws (Error ("GraphQL query failed: " +:+ to_string cause))
    | Returns _, Returns a => Returns a
    end
  ∧ fst (query q v None true reply st) =
      Throws (Error ("GraphQL query failed: Error: "
                     +:+ msg_write_requires_user)).
Proof.
  split; [|done].
  pose proof (getClient_defined uc requiresWrite st) as Hdef.
  unfold query, try_catch, bind, throw.
  destruct (getClient uc requiresWrite st) as [[c|e] st']; cbn in *; [|done].
  destruct (Hdef c eq_refl) as [r ->]. cbn.
  by destruct reply.
Qed.

(** ** Client cache *)

Lemma userKey_identity cfg uc : userKey cfg uc = key_of (identity cfg uc).
Proof. done. Qed.

Lemma exec_lookup_stable calls st k r :
  userClients st !! k = Some r →
  userClients (exec doc build calls st) !! k = Some r.
Proof.
  intros Hk. by eapply lookup_weaken, ext_users, exec_extends.
Qed.

Lemma request_cache c req (reply : Outcome Response) st :
  userClients (snd (request c req reply st)) = userClients st
  ∧ store (snd (request c req reply st)) = store st.
Proof. destruct c; [|done]. by destruct reply. Qed.

(** A call that carries a credential leaves the cache and the store either as
    they were or as [getUserClient] on that credential leaves them. *)
Lemma step_cache c st uc :
  credential_of c = Some uc →
  (userClients (step doc build c st) = userClients st
   ∧ store (step doc build c st) = store st)
  ∨ (userClients (step doc build c st) = userClients (snd (getUserClient uc st))
     ∧ store (step doc build c st) = store (snd (getUserClient uc st))).
Proof.
  destruct c as [uc'|[uc'|] w|[uc'|] reply|q v [uc'|] w reply];
    intros [= ->]; unfold step.
  - by right.
  - by right.
  - rewrite introspectSchema_state.
    destruct (schema st); [by left|]. right.
    rewrite getClient_user.
    destruct (getUserClient uc st) as [[c|e] st']; cbn; [|done].
    destruct (request_cache c {| document := doc; variables := None |}
                reply st') as [Hu Hs].
    destruct c as [r|]; [|done].
    destruct reply as [a|e]; [|done].
    by destruct (build a).
  - rewrite query_state, getClient_user. right.
    destruct (getUserClient uc st) as [[c|e] st']; cbn; [|done].
    apply request_cache.
Qed.

Lemma constructed_for_bound i calls st :
  constructed_for doc build i calls st ≤ 1
  ∧ (is_Some (userClients st !! key_of i) →
     constructed_for doc build i calls st = 0).
Proof.
  revert st. induction calls as [|c calls IH]; intros st; cbn; [split; [lia|done]|].
  destruct (IH (step doc build c st)) as [IH1 IH0].
  pose proof (step_extends c st) as Hext.
  case_bool_decide as Hid; cycle 1.
  { split; [lia|]. intros [r Hr]. rewrite IH0; [done|].
    exists r. by eapply lookup_weaken, ext_users. }
  destruct (credential_of c) as [uc|] eqn:Hc; [|done].
  cbn in Hid. injection Hid as <-. rewrite <- userKey_identity in *.
  unfold allocated.
  destruct (step_cache c st uc Hc) as [[Hu Hs]|[Hu Hs]]; rewrite Hs.
  - replace (length (store st) - length (store st)) with 0 by lia.
    split; [lia|]. intros [r Hr]. rewrite IH0; [done|].
    exists r. by eapply lookup_weaken, ext_users.
  - destruct (userClients st !! userKey (config st) uc) as [r|] eqn:Hk.
    + rewrite (getUserClient_hit _ _ _ Hk). cbn.
      replace (length (store st) - length (store st)) with 0 by lia.
      split; [lia|]. intros _. rewrite IH0; [done|].
      exists r. by eapply lookup_weaken, ext_users.
    + rewrite (getUserClient_miss _ _ Hk) in Hu |- *. cbn in *.
      rewrite length_app. cbn. split; [|by intros [? ?]].
      rewrite IH0; [lia|]. rewrite Hu, lookup_insert_eq. eauto.
Qed.

(** C5. Two calls of [getUserClient] with credentials of one identity, however
    far apart in an execution, return the same client object: one reference,
    filed under the key of that identity and under no other key, naming one
    allocated client, which is not the shared one, at both calls; the second
    call changes nothing.  The first call returns what the key already held
    and changes nothing either, or, the key being new, allocates the client
    for its endpoint and token at the end of the store.  Over a whole
    execution the calls made with credentials of one identity allocate at
    most one client. *)
Theorem getUserClient_idempotent cfg calls1 calls2 uc1 uc2 :
  identity cfg uc1 = identity cfg uc2 →
  let key := key_of (identity cfg uc1) in
  let st1 := exec doc build calls1 (constructor cfg) in
  let st1' := snd (getUserClient uc1 st1) in
  let st2 := exec doc build calls2 st1' in
  (∃ r c,
     fst (getUserClient uc1 st1) = Returns (Some r)
     ∧ getUserClient uc2 st2 = (Returns (Some r), st2)
     ∧ userClients st1' !! key = Some r
     ∧ userClients st2 !! key = Some r
     ∧ (∀ k, userClients st2 !! k = Some r → k = key)
     ∧ store st1' !! r = Some c
     ∧ store st2 !! r = Some c
     ∧ baseClient st2 ≠ Some r
     ∧ match userClients st1 !! key with
       | Some r0 => r = r0 ∧ st1' = st1
       | None =>
           r = length (store st1)
           ∧ c = client_for (effectiveUrl cfg uc1) (UserConfig.accessToken uc1)
           ∧ store st1' = store st1 ++ [c]
       end)
  ∧ ∀ i calls, constructed_for doc build i calls (constructor cfg) ≤ 1.
Proof.
  intros Hid key st1 st1' st2. split; [|intros; apply constructed_for_bound].
  assert (config st1 = cfg) as Hcfg1 by apply reachable_config.
  assert (wf st1') as Hwf1 by apply getUserClient_wf, reachable_wf.
  assert (wf st2) as Hwf2 by by apply exec_wf.
  assert (extends st1' st2) as Hext by apply exec_extends.
  destruct (getUserClient_returns uc1 st1) as (r & Hr & Hk).
  fold st1' in Hk. rewrite Hcfg1, userKey_identity in Hk. fold key in Hk.
  assert (userClients st2 !! key = Some r) as Hk2
    by by eapply lookup_weaken, ext_users.
  destruct (wf_user _ Hwf1 _ _ Hk) as [Hlt _].
  destruct (lookup_lt_is_Some_2 _ _ Hlt) as [c Hc].
  exists r, c. split; [done|]. split.
  { apply getUserClient_hit.
    rewrite (ext_config _ _ Hext). unfold st1'.
    rewrite (ext_config _ _ (getUserClient_extends uc1 st1)), Hcfg1.
    by rewrite userKey_identity, <- Hid. }
  split; [done|]. split; [done|].
  split; [intros k Hk'; by apply (wf_inj _ Hwf2 k key r)|].
  split; [done|].
  split; [by eapply prefix_lookup_Some, ext_store|].
  split; [by destruct (wf_user _ Hwf2 _ _ Hk2)|].
  unfold key in *. rewrite <- userKey_identity, <- Hcfg1 in *.
  destruct (userClients st1 !! userKey (config st1) uc1) as [r0|] eqn:Hk1.
  - unfold st1' in *. rewrite (getUserClient_hit _ _ _ Hk1) in *.
    cbn in *. split; [congruence|done].
  - unfold st1' in *. rewrite (getUserClient_miss _ _ Hk1) in *. cbn in *.
    injection Hr as <-.
    rewrite list_lookup_middle in Hc by done. injection Hc as <-.
    by rewrite Hcfg1.
Qed.

(** ** Schema cache *)

Lemma getClient_sent uc w st : sent (snd (getClient uc w st)) = sent st.
Proof.
  destruct uc as [uc|]; [|by rewrite getClient_anonymous_state].
  rewrite getClient_user.
  destruct (userClients st !! userKey (config st) uc) as [r|] eqn:Hk.
  - by rewrite (getUserClient_hit _ _ _ Hk).
  - by rewrite (getUserClient_miss _ _ Hk).
Qed.

Lemma introspectSchema_stored uc (reply : Outcome Response) st s :
  schema st = Some s →
  introspectSchema doc build uc reply st = (Returns tt, st).
Proof.
  intros Hs. unfold introspectSchema, bind, get, ret. cbn. by rewrite Hs.
Qed.

Lemma introspect_all_stored rest st s :
  schema st = Some s →
  introspect_all doc build rest st = (map (λ _, Returns tt) rest, st).
Proof.
  intros Hs. induction rest as [|[uc reply] rest IH]; cbn; [done|].
  by rewrite (introspectSchema_stored _ _ _ _ Hs), IH.
Qed.

(** The three ways a first [introspectSchema] goes: the client is refused, the
    exchange or the schema construction fails, or the schema is stored. *)
Lemma introspectSchema_first uc (reply : Outcome Response) st :
  schema st = None →
  let introspection := {| document := doc; variables := None |} in
  let wrap e :=
    Error ("Failed to introspect GitLab GraphQL schema: " +:+ to_string e) in
  match getClient uc false st with
  | (Throws e, st') =>
      introspectSchema doc build uc reply st = (Throws (wrap e), st')
  | (Returns None, st') =>
      introspectSchema doc build uc reply st
      = (Throws (wrap (Foreign msg_undefined_request)), st')
  | (Returns (Some r), st') =>
      let st'' := set_sent (sent st' ++ [(r, introspection)]) st' in
      introspectSchema doc build uc reply st =
        match reply with
        | Throws e => (Throws (wrap e), st'')
        | Returns a =>
            match build a with
            | Throws e => (Throws (wrap e), st'')
            | Returns s => (Returns tt, set_schema (Some s) st'')
            end
        end
  end.
Proof.
  intros Hs. unfold introspectSchema, try_catch, bind, throw, get, ret. cbn.
  rewrite Hs.
  destruct (getClient uc false st) as [[[r|]|e] st']; cbn; try done.
  destruct reply as [a|e]; cbn; [|done].
  by destruct (build a).
Qed.

(** *** Calls that overlap *)

(** Run to its end, [introspectSchema] is its first part followed at once by
    its second. *)
Lemma introspectSchema_decomposes uc (reply : Outcome Response) st :
  introspectSchema doc build uc reply st =
    match introspectSchema_begin doc uc st with
    | (Settled o, st') => (o, st')
    | (Awaiting _, st') => introspectSchema_resume build reply st'
    end.
Proof.
  unfold introspectSchema_begin, introspectSchema_resume, introspection_failed.
  destruct (schema st) as [s|] eqn:Hs.
  { by rewrite (introspectSchema_stored _ _ _ _ Hs). }
  pose proof (introspectSchema_first uc reply st Hs) as Hfirst.
  cbn in Hfirst.
  destruct (getClient uc false st) as [[[r|]|e] st']; cbn in *; try done.
Qed.

Lemma introspectSchema_begin_stored uc st s :
  schema st = Some s →
  introspectSchema_begin doc uc st = (Settled (Returns tt), st).
Proof. intros Hs. unfold introspectSchema_begin. by rewrite Hs. Qed.

Lemma introspectSchema_resume_keeps (reply : Outcome Response) st :
  sent (snd (introspectSchema_resume build reply st)) = sent st
  ∧ (is_Some (schema st) →
     is_Some (schema (snd (introspectSchema_resume build reply st)))).
Proof.
  unfold introspectSchema_resume.
  destruct reply as [a|e]; [destruct (build a)|]; cbn; eauto.
Qed.

Lemma event_step_stored (e : Event Response) w :
  is_Some (schema (object w)) →
  sent (object (event_step doc build e w)) = sent (object w)
  ∧ is_Some (schema (object (event_step doc build e w))).
Proof.
  intros [s Hs]. destruct e as [uc|i reply]; cbn.
  - rewrite (introspectSchema_begin_stored _ _ _ Hs). cbn. eauto.
  - destruct (in_flight w !! i); [|eauto].
    destruct (introspectSchema_resume_keeps reply (object w)) as [Hsent Hkeep].
    destruct (introspectSchema_resume build reply (object w)) as [o st'].
    cbn in *. eauto.
Qed.

Lemma run_events_stored (events : list (Event Response)) w :
  is_Some (schema (object w)) →
  sent (object (run_events doc build events w)) = sent (object w)
  ∧ is_Some (schema (object (run_events doc build events w))).
Proof.
  revert w. induction events as [|e events IH]; intros w Hs; cbn; [done|].
  destruct (event_step_stored e w Hs) as [Hsent Hs'].
  destruct (IH _ Hs') as [Hsent' Hs'']. split; [congruence|done].
Qed.

Lemma run_events_quiet (events : list (Event Response)) w s :
  schema (object w) = Some s → in_flight w = [] →
  run_events doc build events w =
    {| object := object w; in_flight := [];
       settled := settled w ++ ((λ _, Returns tt) <$> filter is_call events) |}.
Proof.
  revert w. induction events as [|e events IH]; intros [st fl done_] Hs Hfl;
    cbn in *; subst fl.
  { by rewrite app_nil_r. }
  destruct e as [uc|i reply]; cbn.
  - rewrite (introspectSchema_begin_stored _ _ _ Hs). cbn.
    rewrite (IH {| object := st; in_flight := [];
                   settled := done_ ++ [Returns tt] |} Hs eq_refl).
    cbn. by rewrite <- app_assoc.
  - rewrite lookup_nil.
    by rewrite (IH {| object := st; in_flight := []; settled := done_ |}
                  Hs eq_refl).
Qed.

(** C7, as the code has it.  Calls awaited in turn: when a first call of
    [introspectSchema] succeeds, it has called [request] exactly once, with
    the introspection query, on the client that [getClient] resolves for a
    read with the credential given, and has stored the schema; any number of
    further calls, whatever their credentials, return at once and leave the
    object, hence the log, as it is.  Calls that overlap: once a schema is
    stored, no call and no reply adds to the log, in whatever order they come,
    and from a state with nothing awaited every call settles at once. *)
Theorem introspectSchema_memoizes uc (reply : Outcome Response) st rest
    events :
  schema st = None →
  fst (introspectSchema doc build uc reply st) = Returns tt →
  let st1 := snd (introspectSchema doc build uc reply st) in
  let introspection := {| document := doc; variables := None |} in
  (∃ r a s,
     fst (getClient uc false st) = Returns (Some r)
     ∧ reply = Returns a ∧ build a = Returns s
     ∧ schema st1 = Some s
     ∧ sent st1 = sent st ++ [(r, introspection)]
     ∧ introspect_all doc build rest st1 = (map (λ _, Returns tt) rest, st1)
     ∧ sent (snd (introspect_all doc build ((uc, reply) :: rest) st))
       = sent st ++ [(r, introspection)])
  ∧ run_events doc build events (quiet st1)
    = {| object := st1; in_flight := [];
         settled := (λ _, Returns tt) <$> filter is_call events |}
  ∧ ∀ w, is_Some (schema (object w)) →
         sent (object (run_events doc build events w)) = sent (object w)
         ∧ is_Some (schema (object (run_events doc build events w))).
Proof.
  intros Hs Hok st1 introspection.
  assert (∃ r a s,
            fst (getClient uc false st) = Returns (Some r)
            ∧ reply = Returns a ∧ build a = Returns s
            ∧ schema st1 = Some s
            ∧ sent st1 = sent st ++ [(r, introspection)]
            ∧ introspect_all doc build rest st1
              = (map (λ _, Returns tt) rest, st1)
            ∧ sent (snd (introspect_all doc build ((uc, reply) :: rest) st))
              = sent st ++ [(r, introspection)]) as Hturn.
  { pose proof (introspectSchema_first uc reply st Hs) as Hfirst.
    pose proof (getClient_sent uc false st) as Hsent.
    cbn in Hfirst.
    assert (∀ s, schema st1 = Some s →
              introspect_all doc build rest st1
              = (map (λ _, Returns tt) rest, st1)) as Hrest
      by (intros; by eapply introspect_all_stored).
    assert (snd (introspect_all doc build ((uc, reply) :: rest) st)
            = snd (introspect_all doc build rest st1)) as Hall.
    { cbn. unfold st1.
      destruct (introspectSchema doc build uc reply st) as [o st'].
      cbn. by destruct (introspect_all doc build rest st'). }
    rewrite Hall. clear Hall. unfold st1 in *. clear st1.
    destruct (getClient uc false st) as [[[r|]|e] st']; cbn in *;
      try (rewrite Hfirst in Hok; done).
    destruct reply as [a|e]; [|rewrite Hfirst in Hok; done].
    destruct (build a) as [s|e] eqn:Hbuild; [|rewrite Hfirst in Hok; done].
    rewrite Hfirst in Hrest |- *. cbn in *.
    exists r, a, s. rewrite (Hrest s eq_refl). cbn. rewrite Hsent.
    by repeat split. }
  split; [done|]. split; [|intros w; apply run_events_stored].
  destruct Hturn as (r & a & s & _ & _ & _ & Hs1 & _).
  by rewrite (run_events_quiet events (quiet st1) s Hs1 eq_refl).
Qed.


(** C9. Once a schema is stored, [introspectSchema] returns at once for every
    credential and for none, whatever [getClient] would have answered, sends
    nothing and changes nothing; the schema stays through every later call,
    and the two views list the fields of that one schema to every caller. *)
Theorem stored_schema_serves_every_caller st s :
  schema st = Some s →
  (∀ uc (reply : Outcome Response),
     introspectSchema doc build uc reply st = (Returns tt, st))
  ∧ (∀ calls, schema (exec doc build calls st) = Some s)
  ∧ (∀ calls,
       getAvailableQueries (exec doc build calls st)
       = default [] (getQueryType s)
       ∧ getAvailableMutations (exec doc build calls st)
         = default [] (getMutationType s)).
Proof.
  intros Hs.
  assert (∀ calls, schema (exec doc build calls st) = Some s) as Hkeep
    by (intros; by apply (ext_schema _ _ (exec_extends _ _))).
  split; [intros; by eapply introspectSchema_stored|]. split; [done|].
  intros calls. unfold getAvailableQueries, getAvailableMutations.
  rewrite Hkeep. by destruct (getQueryType s), (getMutationType s).
Qed.

End Runs.

(** ** The cache key *)

Lemma strip_trailing_slash_snoc s : strip_trailing_slash (s +:+ "/") = s.
Proof.
  induction s as [|c s IH]; [done|].
  destruct s as [|c' s]; [done|].
  change (strip_trailing_slash (String c (String c' s) +:+ "/"))
    with (String c (strip_trailing_slash (String c' s +:+ "/"))).
  by rewrite IH.
Qed.

Lemma append_assoc (a b c : string) : (a +:+ b) +:+ c = a +:+ (b +:+ c).
Proof.
  induction a as [|x a IH]; [done|].
  change (String x ((a +:+ b) +:+ c) = String x (a +:+ (b +:+ c))).
  by rewrite IH.
Qed.

Lemma truthy_snoc s : truthy (s +:+ "/") = true.
Proof. by destruct s. Qed.

Lemma constructor_cache_empty cfg : userClients (constructor cfg) = ∅.
Proof. rewrite constructor_shape. by destruct (truthy_opt _). Qed.

Lemma constructor_config cfg : config (constructor cfg) = cfg.
Proof. rewrite constructor_shape. by destruct (truthy_opt _). Qed.

(** C10. The key of a user client is the effective endpoint as given, a colon
    and the token, while the client's endpoint drops a final slash: two
    credentials whose endpoints differ by a final slash only get two distinct
    cached clients with one and the same endpoint; and two distinct
    (endpoint, token) pairs can have one key. *)
Theorem cache_key_is_raw_concatenation :
  (∀ cfg uc,
     userKey cfg uc =
       or_else (UserConfig.gitlabUrl uc) (Config.gitlabUrl cfg)
       +:+ ":" +:+ UserConfig.accessToken uc)
  ∧ (∀ cfg url tok,
       truthy url = true →
       strip_trailing_slash url = url →
       let plain := UserConfig.mk tok (Some url) in
       let slashed := UserConfig.mk tok (Some (url +:+ "/")) in
       let st1 := snd (getUserClient plain (constructor cfg)) in
       let st2 := snd (getUserClient slashed st1) in
       ∃ r1 r2 c1 c2,
         fst (getUserClient plain (constructor cfg)) = Returns (Some r1)
         ∧ fst (getUserClient slashed st1) = Returns (Some r2)
         ∧ r1 ≠ r2
         ∧ size (userClients st2) = 2
         ∧ store st2 !! r1 = Some c1 ∧ store st2 !! r2 = Some c2
         ∧ endpoint c1 = url +:+ "/api/graphql"
         ∧ endpoint c2 = url +:+ "/api/graphql")
  ∧ (∃ i j : string * string, i ≠ j ∧ key_of i = key_of j).
Proof.
  split; [done|]. split.
  - intros cfg url tok Hurl Hstrip plain slashed st1 st2.
    set (st0 := constructor cfg) in *.
    assert (userKey (config st0) plain = url +:+ ":" +:+ tok) as Hk1.
    { unfold userKey, effectiveUrl, or_else. cbn. by rewrite Hurl. }
    assert (userKey (config st0) slashed = url +:+ "/:" +:+ tok) as Hk2.
    { unfold userKey, effectiveUrl, or_else. cbn.
      by rewrite truthy_snoc, append_assoc. }
    assert (url +:+ ":" +:+ tok ≠ url +:+ "/:" +:+ tok) as Hne.
    { intros H. by apply (inj (String.app url)) in H. }
    assert (userClients st0 !! userKey (config st0) plain = None) as Hm1.
    { unfold st0. by rewrite constructor_cache_empty. }
    pose proof (getUserClient_miss plain st0 Hm1) as H1.
    assert (userClients st1 !! userKey (config st1) slashed = None) as Hm2.
    { unfold st1. rewrite H1. cbn. rewrite Hk1, Hk2.
      rewrite lookup_insert_ne by done.
      unfold st0. by rewrite constructor_cache_empty. }
    pose proof (getUserClient_miss slashed st1 Hm2) as H2.
    fold st1 in H1.
    assert (store st1 = store st0 ++ [ {|
              endpoint := url +:+ "/api/graphql";
              headers := [("Authorization", "Bearer " +:+ tok);
                          ("Content-Type", "application/json")] |} ]) as Hs1.
    { unfold st1. rewrite H1. cbn. unfold effectiveUrl, or_else. cbn.
      by rewrite Hurl, Hstrip. }
    eexists (length (store st0)), (length (store st1)), _, _.
    assert (userClients st1 = <[url +:+ ":" +:+ tok := length (store st0)]> ∅)
      as Hu1.
    { unfold st1. rewrite H1. cbn. rewrite Hk1.
      unfold st0. by rewrite constructor_cache_empty. }
    unfold st2. rewrite H1, H2. cbn.
    split; [done|]. split; [done|].
    split; [rewrite Hs1, length_app; cbn; lia|].
    split.
    { rewrite map_size_insert_None by done.
      by rewrite Hu1, map_size_insert_None, map_size_empty. }
    split.
    { rewrite lookup_app_l by (rewrite Hs1, length_app; cbn; lia).
      rewrite Hs1. by apply list_lookup_middle. }
    split; [by apply list_lookup_middle|].
    split; [done|]. cbn.
    by rewrite truthy_snoc, strip_trailing_slash_snoc.
  - exists ("https://gitlab.example.com", "80:t"),
           ("https://gitlab.example.com:80", "t").
    split; done.
Qed.

(** ** Growth of the cache *)

Lemma getUserClients_distinct_keys ucs : ∀ st,
  NoDup (userKey (config st) <$> ucs) →
  (∀ uc, uc ∈ ucs → userClients st !! userKey (config st) uc = None) →
  size (userClients (getUserClients ucs st))
  = size (userClients st) + length ucs.
Proof.
  induction ucs as [|uc ucs IH]; intros st Hnd Hfresh; cbn; [lia|].
  cbn in Hnd. apply NoDup_cons in Hnd as [Hnotin Hnd].
  assert (userClients st !! userKey (config st) uc = None) as Hm
    by (apply Hfresh; left).
  rewrite IH; rewrite (getUserClient_miss _ _ Hm); cbn; try done.
  - rewrite map_size_insert_None by done. lia.
  - intros uc' Hin. rewrite lookup_insert_ne; [apply Hfresh; by right|].
    intros Heq. apply Hnotin. rewrite Heq. apply list_elem_of_fmap. eauto.
Qed.

(** After calls with credentials of pairwise distinct keys, a new object holds
    one user client per call. *)
Lemma cache_growth_distinct_keys cfg ucs :
  NoDup (userKey cfg <$> ucs) →
  size (userClients (getUserClients ucs (constructor cfg))) = length ucs.
Proof.
  intros Hnd. rewrite getUserClients_distinct_keys.
  - by rewrite constructor_cache_empty, map_size_empty.
  - by rewrite constructor_config.
  - intros. by rewrite constructor_cache_empty.
Qed.

(** C6, at two credentials of distinct identities whose keys coincide:
    the second call is served the client built for the first, bound to the
    other endpoint and the other token, and the cache holds one client. *)
Theorem distinct_identities_can_share_a_client :
  let st0 := constructor cfg_hybrid_shared in
  let st2 := getUserClients [cred_port_in_token; cred_port_in_url] st0 in
  identity cfg_hybrid_shared cred_port_in_token
    ≠ identity cfg_hybrid_shared cred_port_in_url
  ∧ size (userClients st2) = 1
  ∧ fst (getUserClient cred_port_in_token st2) = Returns (Some 1)
  ∧ fst (getUserClient cred_port_in_url st2) = Returns (Some 1)
  ∧ store st2 !! 1 =
      Some {| endpoint := "https://gitlab.example.com/api/graphql";
              headers := [("Authorization", "Bearer 80:t");
                          ("Content-Type", "application/json")] |}.
Proof. cbv zeta. split; [done|]. by vm_compute. Qed.

(** C2, at a credential whose key another credential holds already: for a
    read as for a write, [getClient] decides for the user credential but hands
    back the client built for the other credential, with the other endpoint
    and the other token in its Authorization header, and builds nothing for
    the credential it was given. *)
Theorem user_credential_can_be_served_anothers_client :
  let cfg := cfg_hybrid_shared in
  let st := snd (getUserClient cred_port_in_token (constructor cfg)) in
  ∀ requiresWrite,
    let served := getClient (Some cred_port_in_url) requiresWrite st in
    identity cfg cred_port_in_token ≠ identity cfg cred_port_in_url
    ∧ fst served = Returns (Some 1)
    ∧ snd served = st
    ∧ store (snd served) !! 1
      = Some (client_for "https://gitlab.example.com" "80:t")
    ∧ store (snd served) !! 1
      ≠ Some (client_for (effectiveUrl cfg cred_port_in_url)
                (UserConfig.accessToken cred_port_in_url)).
Proof.
  cbv zeta. intros requiresWrite. split; [done|].
  assert (getClient (Some cred_port_in_url) requiresWrite
            (snd (getUserClient cred_port_in_token
                    (constructor cfg_hybrid_shared)))
          = (Returns (Some 1),
             snd (getUserClient cred_port_in_token
                    (constructor cfg_hybrid_shared)))) as ->.
  { rewrite getClient_user. apply getUserClient_hit. by vm_compute. }
  cbn [fst snd]. split; [done|]. split; [done|].
  split; [by vm_compute|]. by vm_compute.
Qed.

(** ** Instances *)

(** The four end-to-end scenarios of the specification. *)
Example scenario_A :
  fst (getClient None false (constructor cfg_hybrid_shared)) = Returns (Some 0)
  ∧ baseClient (constructor cfg_hybrid_shared) = Some 0.
Proof. by vm_compute. Qed.

Example scenario_B :
  fst (query (Response := string) "mutation { createIssue }" None None true
         (Returns "{}") (constructor cfg_hybrid_shared))
  = Throws (Error
      "GraphQL query failed: Error: Write operations require user authentication. Please provide your GitLab credentials.").
Proof. by vm_compute. Qed.

Example scenario_C :
  let r := getClient (Some (UserConfig.mk "abc" None)) false
             (constructor cfg_per_user) in
  fst r = Returns (Some 0)
  ∧ userClients (snd r) !! "https://gitlab.com:abc" = Some 0.
Proof. by vm_compute. Qed.

Example scenario_D :
  fst (getClient None false (constructor cfg_shared_only))
  = Throws (Error msg_no_auth).
Proof. by vm_compute. Qed.

(** The table of reads without a user credential, mode by mode. *)
Example anonymous_read_instances :
  fst (getClient None false (constructor cfg_hybrid_shared))
    = Returns (Some 0)
  ∧ fst (getClient None false (constructor cfg_hybrid_only))
    = Throws (Error msg_requires_user)
  ∧ fst (getClient None false (constructor cfg_per_user_shared))
    = Throws (Error msg_requires_user)
  ∧ fst (getClient None false (constructor cfg_shared_shared))
    = Returns (Some 0)
  ∧ fst (getClient None false (constructor cfg_shared_only))
    = Throws (Error msg_no_auth).
Proof. by vm_compute. Qed.

Example names_reason_rejects_other_text :
  names_reason "write operations require user authentication"
    msg_requires_user = false.
Proof. by vm_compute. Qed.

Example one_client_for_one_identity :
  constructed_for sample_doc sample_build
    (identity cfg_hybrid_shared cred_T)
    [call_getUserClient cred_T;
     call_query "query { currentUser }" None (Some cred_T_explicit) false
       (Returns "{}");
     call_getUserClient (UserConfig.mk "U" None)]
    (constructor cfg_hybrid_shared) = 1.
Proof. by vm_compute. Qed.

Example strip_trailing_slash_twice :
  strip_trailing_slash "https://gitlab.com//" = "https://gitlab.com/".
Proof. by vm_compute. Qed.

(** C4, as stated, fails: under one configuration a refused write and a read
    whose exchange fails can raise one and the same error, so that no
    classification of raised errors tells an authorization error from a
    request error. *)
Lemma query_errors_are_of_one_kind :
  let st := constructor cfg_hybrid_shared in
  let reply_lost : Outcome string := Throws (Error msg_write_requires_user) in
  fst (getClient None true st) = Throws (Error msg_write_requires_user)
  ∧ fst (getClient None false st) = Returns (Some 0)
  ∧ ¬ ∃ kind : Thrown → ErrorKind,
        (∀ e, fst (query "mutation { createIssue }" None None true
                     (Returns "{}") st) = Throws e →
              kind e = AuthorizationError)
        ∧ (∀ e, fst (query "query { currentUser }" None None false
                       reply_lost st) = Throws e →
                kind e = RequestError).
Proof.
  cbv zeta. split; [by vm_compute|]. split; [by vm_compute|].
  intros (kind & Hauth & Hreq).
  specialize (Hauth _ eq_refl). specialize (Hreq _ eq_refl).
  vm_compute in Hauth, Hreq. congruence.
Qed.

(** ** Witnesses *)

Lemma getUserClient_idempotent_witness :
  let st1 :=
    exec sample_doc sample_build
      [call_query "query { currentUser }" None None false (Returns "{}")]
      (constructor cfg_hybrid_shared) in
  let st2 :=
    exec sample_doc sample_build [call_introspectSchema None (Returns "{}")]
      (snd (getUserClient cred_T st1)) in
  identity cfg_hybrid_shared cred_T = identity cfg_hybrid_shared cred_T_explicit
  ∧ ∃ r,
      fst (getUserClient cred_T st1) = Returns (Some r)
      ∧ getUserClient cred_T_explicit st2 = (Returns (Some r), st2)
      ∧ store st2 !! r = Some (client_for "https://gitlab.com" "T").
Proof.
  cbv zeta. split; [reflexivity|].
  destruct (getUserClient_idempotent sample_doc sample_build cfg_hybrid_shared
              [call_query "query { currentUser }" None None false
                 (Returns "{}")]
              [call_introspectSchema None (Returns "{}")]
              cred_T cred_T_explicit eq_refl)
    as [(r & c & Hr & Hr2 & _ & _ & _ & _ & Hc & _ & Hnew) _].
  exists r. split; [exact Hr|]. split; [exact Hr2|].
  destruct Hnew as (_ & Hclient & _). rewrite Hc, Hclient. reflexivity.
Defined.

Lemma introspectSchema_memoizes_witness :
  schema (constructor cfg_hybrid_shared) = None
  ∧ fst (introspectSchema sample_doc sample_build (Some cred_T)
           (Returns "{}") (constructor cfg_hybrid_shared)) = Returns tt
  ∧ (∃ r : ClientRef,
       sent (snd (introspect_all sample_doc sample_build
                    [(Some cred_T, Returns "{}");
                     (Some cred_T, Throws (Foreign "timeout"));
                     (None, Returns "")]
                    (constructor cfg_hybrid_shared)))
       = [(r, {| document := sample_doc; variables := None |})])
  ∧ settled
      (run_events sample_doc sample_build
         [ev_call (Some cred_T); ev_reply 0 (Returns "{}"); ev_call None]
         (quiet (snd (introspectSchema sample_doc sample_build (Some cred_T)
                        (Returns "{}") (constructor cfg_hybrid_shared)))))
    = [Returns tt; Returns tt].
Proof.
  split; [reflexivity|]. split; [vm_compute; reflexivity|].
  destruct (introspectSchema_memoizes sample_doc sample_build (Some cred_T)
              (Returns "{}") (constructor cfg_hybrid_shared)
              [(Some cred_T, Throws (Foreign "timeout")); (None, Returns "")]
              [ev_call (Some cred_T); ev_reply 0 (Returns "{}"); ev_call None]
              eq_refl ltac:(vm_compute; reflexivity))
    as ((r & a & s & _ & _ & _ & _ & _ & _ & Hsent) & Hquiet & _).
  split; [exists r; exact Hsent|].
  exact (f_equal settled Hquiet).
Defined.

(** C7, as stated, fails on calls that overlap: two calls with one credential,
    the second made while the first awaits its reply, each call [request],
    although the first succeeds; the reply that comes last decides the schema
    that stays. *)
Lemma overlapping_introspections_both_send :
  let introspection := {| document := sample_doc; variables := None |} in
  let w :=
    run_events sample_doc sample_build_named
      [ev_call (Some cred_T); ev_call (Some cred_T);
       ev_reply 0 (Returns "first"); ev_reply 0 (Returns "second")]
      (quiet (constructor cfg_per_user)) in
  settled w = [Returns tt; Returns tt]
  ∧ sent (object w) = [(0, introspection); (0, introspection)]
  ∧ length (sent (object w)) ≠ 1
  ∧ getAvailableQueries (object w) = ["second"].
Proof. cbv zeta. by vm_compute. Qed.


Lemma stored_schema_serves_every_caller_witness :
  let st :=
    snd (introspectSchema sample_doc sample_build (Some cred_T) (Returns "{}")
           (constructor cfg_per_user)) in
  schema st = Some sample_schema
  ∧ fst (getClient None false st) = Throws (Error msg_requires_user)
  ∧ introspectSchema sample_doc sample_build None
      (Throws (Foreign "unreachable")) st = (Returns tt, st)
  ∧ getAvailableMutations st = ["createIssue"; "createMergeRequest"].
Proof.
  cbv zeta.
  assert (schema (snd (introspectSchema sample_doc sample_build (Some cred_T)
                         (Returns "{}") (constructor cfg_per_user)))
          = Some sample_schema) as Hs by (vm_compute; reflexivity).
  destruct (stored_schema_serves_every_caller sample_doc sample_build _ _ Hs)
    as (Hret & _ & Hviews).
  split; [exact Hs|]. split; [vm_compute; reflexivity|].
  split; [apply Hret|]. exact (proj2 (Hviews [])).
Defined.

Lemma cache_key_is_raw_concatenation_witness :
  truthy "https://gitlab.com" = true
  ∧ strip_trailing_slash "https://gitlab.com" = "https://gitlab.com"
  ∧ size (userClients
            (getUserClients
               [UserConfig.mk "T" (Some "https://gitlab.com");
                UserConfig.mk "T" (Some "https://gitlab.com/")]
               (constructor cfg_per_user))) = 2.
Proof.
  split; [reflexivity|]. split; [reflexivity|].
  destruct cache_key_is_raw_concatenation as (_ & Hslash & _).
  destruct (Hslash cfg_per_user "https://gitlab.com" "T" eq_refl eq_refl)
    as (r1 & r2 & c1 & c2 & _ & _ & _ & Hsize & _).
  exact Hsize.
Defined.

(** * Further properties of the class *)

(** ** Trailing slash *)

Lemma String_app_cons c (s t : string) : String c s +:+ t = String c (s +:+ t).
Proof. done. Qed.

(** [replace(/\/$/, '')] drops the final character when it is a slash, and
    only then. *)
Theorem strip_trailing_slash_spec s :
  (∃ p, s = p +:+ "/" ∧ strip_trailing_slash s = p)
  ∨ (strip_trailing_slash s = s ∧ ∀ p, s ≠ p +:+ "/").
Proof.
  induction s as [|c s IH].
  - right. split; [done|]. by intros [|? ?].
  - destruct s as [|c' s].
    + cbn. destruct (Ascii.eqb_spec c "/"%char) as [->|Hc].
      * left. by exists "".
      * right. split; [done|]. intros [|c1 [|c2 p]] [=]; congruence.
    + change (strip_trailing_slash (String c (String c' s)))
        with (String c (strip_trailing_slash (String c' s))).
      destruct IH as [(p & Hp & Hs)|[Hs Hno]].
      * left. exists (String c p). by rewrite Hs, Hp.
      * right. rewrite Hs. split; [done|].
        intros [|c1 p]; [done|]. rewrite String_app_cons.
        intros [= -> Hp]. by apply (Hno p).
Qed.

(** ** The key of tokens without a colon *)

Lemma has_colon_app (a b : string) : has_colon (a +:+ ":" +:+ b) = true.
Proof.
  induction a as [|c a IH]; [done|].
  rewrite String_app_cons. cbn. rewrite IH. apply orb_true_r.
Qed.

Lemma append_colon_inj (u1 t1 u2 t2 : string) :
  has_colon t1 = false → has_colon t2 = false →
  u1 +:+ ":" +:+ t1 = u2 +:+ ":" +:+ t2 → u1 = u2 ∧ t1 = t2.
Proof.
  intros H1 H2. revert u2.
  induction u1 as [|c u1 IH]; intros [|c' u2] Hk.
  - change (String ":" t1 = String ":" t2) in Hk. by injection Hk as ->.
  - change (String ":" t1 = String c' (u2 +:+ ":" +:+ t2)) in Hk.
    injection Hk as _ ->. by rewrite has_colon_app in H1.
  - change (String c (u1 +:+ ":" +:+ t1) = String ":" t2) in Hk.
    injection Hk as _ <-. by rewrite has_colon_app in H2.
  - change (String c (u1 +:+ ":" +:+ t1) = String c' (u2 +:+ ":" +:+ t2))
      in Hk.
    injection Hk as -> Hk. by destruct (IH _ Hk) as [-> ->].
Qed.

(** On identities whose tokens hold no colon the cache key determines the
    identity. *)
Theorem key_of_injective_without_colon (i j : string * string) :
  has_colon i.2 = false → has_colon j.2 = false →
  key_of i = key_of j → i = j.
Proof.
  destruct i as [u1 t1], j as [u2 t2]. unfold key_of. cbn.
  intros H1 H2 Hk. by destruct (append_colon_inj _ _ _ _ H1 H2 Hk) as [-> ->].
Qed.

(** Credentials of pairwise distinct identities, with tokens that hold no
    colon, get one cached client each. *)
Theorem cache_growth_without_colon cfg ucs :
  Forall (λ uc, has_colon (UserConfig.accessToken uc) = false) ucs →
  NoDup (identity cfg <$> ucs) →
  size (userClients (getUserClients ucs (constructor cfg))) = length ucs.
Proof.
  intros Hfree Hnd. apply cache_growth_distinct_keys.
  induction ucs as [|uc ucs IH]; cbn; [constructor|].
  apply Forall_cons in Hfree as [Huc Hfree].
  cbn in Hnd. apply NoDup_cons in Hnd as [Hnotin Hnd].
  constructor; [|by apply IH].
  intros (uc' & Hkey & Hin)%list_elem_of_fmap. apply Hnotin.
  apply list_elem_of_fmap. exists uc'. split; [|done].
  unfold userKey in Hkey. unfold identity.
  apply append_colon_inj in Hkey as [-> ->]; [done|done|].
  by apply (proj1 (Forall_forall _ _) Hfree).
Qed.

Section Routing.

Context {Response : Type}.
Variable doc : string.
Variable build : Response → Outcome GraphQLSchema.

(** ** One call of [query], in full *)

Lemma query_full q v uc w (reply : Outcome Response) st :
  query q v uc w reply st =
    match getClient uc w st with
    | (Throws e, st') =>
        (Throws (Error ("GraphQL query failed: " +:+ to_string e)), st')
    | (Returns None, st') =>
        (Throws (Error ("GraphQL query failed: " +:+ msg_undefined_request)),
         st')
    | (Returns (Some r), st') =>
        (match reply with
         | Returns a => Returns a
         | Throws e =>
             Throws (Error ("GraphQL query failed: " +:+ to_string e))
         end,
         set_sent (sent st' ++ [(r, {| document := q; variables := v |})]) st')
    end.
Proof.
  unfold query, try_catch, bind, throw.
  destruct (getClient uc w st) as [[[r|]|e] st']; cbn; try done.
  by destruct reply.
Qed.

(** What a client returned by [getClient] is: the shared one, for an anonymous
    read outside per-user mode, or the one cached for the credential given. *)
Lemma getClient_result uc w st r :
  fst (getClient uc w st) = Returns (Some r) →
  (uc = None ∧ w = false ∧ baseClient st = Some r
   ∧ Config.authMode (config st) ≠ per_user
   ∧ snd (getClient uc w st) = st)
  ∨ (∃ u, uc = Some u
          ∧ userClients (snd (getClient uc w st)) !! userKey (config st) u
            = Some r).
Proof.
  destruct uc as [u|].
  - rewrite getClient_user. intros Hr. right. exists u. split; [done|].
    destruct (getUserClient_returns u st) as (r' & Hr' & Hk). congruence.
  - intros Hr. left. rewrite getClient_anonymous_state.
    revert Hr. unfold getClient, bind, get, ret, throw.
    destruct w; [done|]. cbn.
    destruct (baseClient st) as [b|]; cbn; [|by repeat case_match].
    case_bool_decide; cbn; [by repeat case_match|].
    intros [= <-]. done.
Qed.

Lemma getClient_refusal uc w st e :
  fst (getClient uc w st) = Throws e →
  uc = None ∧ snd (getClient uc w st) = st.
Proof.
  destruct uc as [u|].
  - destruct (getUserClient_returns u st) as (r & Hr & _).
    rewrite getClient_user, Hr. done.
  - intros _. by rewrite getClient_anonymous_state.
Qed.

(** Whenever [getClient] refuses, the call was anonymous, [query] and a first
    [introspectSchema] throw the refusal wrapped, and the object is left as it
    was: nothing is sent, nothing is allocated. *)
Theorem refusal_has_no_effect uc w st e :
  fst (getClient uc w st) = Throws e →
  uc = None
  ∧ (∀ q v (reply : Outcome Response),
       query q v uc w reply st =
         (Throws (Error ("GraphQL query failed: " +:+ to_string e)), st))
  ∧ (w = false → schema st = None →
     ∀ reply : Outcome Response,
       introspectSchema doc build uc reply st =
         (Throws (Error ("Failed to introspect GitLab GraphQL schema: "
                         +:+ to_string e)), st)).
Proof.
  intros He. destruct (getClient_refusal _ _ _ _ He) as [-> Hst].
  split; [done|]. split.
  - intros q v reply. rewrite query_full.
    destruct (getClient None w st) as [[c|e'] st']; cbn in *; [done|].
    congruence.
  - intros -> Hs reply.
    pose proof (introspectSchema_first doc build None reply st Hs) as Hfirst.
    cbn in Hfirst.
    destruct (getClient None false st) as [[c|e'] st']; cbn in *; [done|].
    rewrite Hfirst. congruence.
Qed.

(** [query] with a credential, in an execution: one request, through the
    client cached for the credential, which is not the shared one. *)
Lemma query_with_credential cfg calls q v u w (reply : Outcome Response) :
  let st := exec doc build calls (constructor cfg) in
  let st' := snd (query q v (Some u) w reply st) in
  ∃ r, sent st' = sent st ++ [(r, {| document := q; variables := v |})]
       ∧ userClients st' !! userKey cfg u = Some r
       ∧ baseClient st' ≠ Some r.
Proof.
  intros st st'. unfold st'. rewrite query_full.
  rewrite getClient_user.
  destruct (getUserClient_returns u st) as (r & Hr & Hk).
  pose proof (getUserClient_wf u st (reachable_wf doc build cfg calls)) as Hwf.
  pose proof (getClient_sent (Some u) true st) as Hsent.
  rewrite getClient_user in Hsent.
  unfold st in Hk. rewrite reachable_config in Hk. fold st in Hk.
  destruct (getUserClient u st) as [o st1]; cbn in *. subst o. cbn.
  exists r. rewrite Hsent. repeat split; try done.
  by destruct (wf_user _ Hwf _ _ Hk).
Qed.

(** [query] for an anonymous read, in an execution with a shared token
    configured and a mode other than per-user. *)
Lemma query_anonymous_read cfg calls tok q v (reply : Outcome Response) :
  Config.sharedAccessToken cfg = Some tok → truthy tok = true →
  Config.authMode cfg ≠ per_user →
  let st := exec doc build calls (constructor cfg) in
  query q v None false reply st =
    (match reply with
     | Returns a => Returns a
     | Throws e => Throws (Error ("GraphQL query failed: " +:+ to_string e))
     end,
     set_sent (sent st ++ [(0, {| document := q; variables := v |})]) st).
Proof.
  intros Htok Htruthy Hmode st.
  assert (truthy_opt (Config.sharedAccessToken cfg) = true) as Hpresent
    by (by rewrite Htok).
  rewrite query_full.
  assert (getClient None false st = (Returns (Some 0), st)) as ->; [|done].
  unfold getClient, bind, get, ret, throw. cbn.
  unfold st. rewrite reachable_baseClient, reachable_config, Hpresent.
  rewrite bool_decide_eq_true_2 by eauto.
  by rewrite bool_decide_eq_false_2.
Qed.

(** A write sent by [query] never travels through the shared client: without
    a credential nothing at all happens to the object, with one the request
    goes through the client cached for it. *)
Theorem write_requests_avoid_shared_client cfg calls q v uc
    (reply : Outcome Response) :
  let st := exec doc build calls (constructor cfg) in
  let st' := snd (query q v uc true reply st) in
  match uc with
  | None => st' = st
  | Some u =>
      ∃ r, sent st' = sent st ++ [(r, {| document := q; variables := v |})]
           ∧ userClients st' !! userKey cfg u = Some r
           ∧ baseClient st' ≠ Some r
  end.
Proof.
  intros st st'. destruct uc as [u|]; [apply query_with_credential|].
  unfold st'. by rewrite query_full.
Qed.

(** ** What a call does to the log, the cache and the store *)

Lemma step_sent c st :
  sent (step doc build c st) = sent st
  ∨ ∃ uc w r req,
      fst (getClient uc w st) = Returns (Some r)
      ∧ sent (step doc build c st) = sent st ++ [(r, req)]
      ∧ userClients (step doc build c st)
        = userClients (snd (getClient uc w st))
      ∧ store (step doc build c st) = store (snd (getClient uc w st)).
Proof.
  destruct c as [u|uc w|uc reply|q v uc w reply]; unfold step.
  - left. apply (getClient_sent (Some u) false).
  - left. apply getClient_sent.
  - destruct (schema st) as [s|] eqn:Hs.
    { left. by rewrite (introspectSchema_stored _ _ _ _ _ _ Hs). }
    pose proof (introspectSchema_first doc build uc reply st Hs) as Hfirst.
    pose proof (getClient_sent uc false st) as Hsent.
    cbn in Hfirst.
    destruct (getClient uc false st) as [[[r|]|e] st'] eqn:Hg; cbn in *;
      try (left; by rewrite Hfirst).
    right. exists uc, false, r, {| document := doc; variables := None |}.
    rewrite Hg. cbn. split; [done|].
    destruct reply as [a|e]; [destruct (build a)|]; rewrite Hfirst; cbn;
      by rewrite Hsent.
  - rewrite query_full.
    pose proof (getClient_sent uc w st) as Hsent.
    destruct (getClient uc w st) as [[[r|]|e] st'] eqn:Hg; cbn in *;
      try (by left).
    right. exists uc, w, r, {| document := q; variables := v |}.
    rewrite Hg. cbn. by rewrite Hsent.
Qed.

Lemma step_cache_any c st :
  (userClients (step doc build c st) = userClients st
   ∧ store (step doc build c st) = store st)
  ∨ (∃ u, credential_of c = Some u
          ∧ userClients (step doc build c st)
            = userClients (snd (getUserClient u st))
          ∧ store (step doc build c st) = store (snd (getUserClient u st))).
Proof.
  destruct (credential_of c) as [u|] eqn:Hc.
  { destruct (step_cache doc build c st u Hc) as [H|H]; [by left|].
    right. by exists u. }
  left. destruct c as [u|[u|] w|[u|] reply|q v [u|] w reply]; try done;
    unfold step.
  - by rewrite getClient_anonymous_state.
  - rewrite introspectSchema_state.
    destruct (schema st); [done|].
    pose proof (getClient_anonymous_state false st) as Hst.
    destruct (getClient None false st) as [[c|e] st']; cbn in *; subst st';
      [|done].
    destruct (request_cache c {| document := doc; variables := None |}
                reply st) as [Hu Hs].
    destruct c as [r|]; [|done].
    destruct reply as [a|e]; [|done].
    by destruct (build a).
  - rewrite query_state.
    pose proof (getClient_anonymous_state w st) as Hst.
    destruct (getClient None w st) as [[c|e] st']; cbn in *; subst st';
      [|done].
    apply request_cache.
Qed.

(** No call sends more than one request, so an execution sends at most as
    many requests as it has calls. *)
Theorem at_most_one_request_per_call calls st :
  length (sent (exec doc build calls st)) ≤ length (sent st) + length calls.
Proof.
  revert st. induction calls as [|c calls IH]; intros st; cbn; [lia|].
  etrans; [apply IH|].
  destruct (step_sent c st) as [->|(uc & w & r & req & _ & -> & _)];
    [lia|].
  rewrite length_app. cbn. lia.
Qed.

(** ** Where requests go *)

Lemma step_routed c st : wf st → routed st → routed (step doc build c st).
Proof.
  intros Hwf Hrt r req Hin.
  pose proof (step_extends doc build c st) as Hext.
  assert (∀ r, r < length (store st) →
            r < length (store (step doc build c st))) as Hlt.
  { intros r' Hr'. pose proof (prefix_length _ _ (ext_store _ _ Hext)). lia. }
  assert ((r, req) ∈ sent st → r < length (store (step doc build c st))
          ∧ ((baseClient (step doc build c st) = Some r
              ∧ Config.authMode (config (step doc build c st)) ≠ per_user)
             ∨ ∃ k, userClients (step doc build c st) !! k = Some r)) as Hold.
  { intros Hin'. destruct (Hrt _ _ Hin') as [Hr Hwho].
    split; [by apply Hlt|].
    rewrite (ext_base _ _ Hext), (ext_config _ _ Hext).
    destruct Hwho as [?|[k Hk]]; [by left|right].
    exists k. by eapply lookup_weaken, ext_users. }
  destruct (step_sent c st) as [Hs|(uc & w & r' & req' & Hg & Hs & Hu & Hst)].
  { rewrite Hs in Hin. by apply Hold. }
  rewrite Hs in Hin. apply elem_of_app in Hin as [Hin|Hin]; [by apply Hold|].
  apply list_elem_of_singleton in Hin. injection Hin as -> ->.
  pose proof (getClient_wf uc w st Hwf) as Hwf'.
  rewrite Hu, Hst, (ext_base _ _ Hext), (ext_config _ _ Hext).
  destruct (getClient_result _ _ _ _ Hg) as [(-> & -> & Hb & Hm & Hsame)|
                                             (u & -> & Hk)].
  - rewrite Hsame. split; [by apply (wf_base _ Hwf)|by left].
  - split; [by destruct (wf_user _ Hwf' _ _ Hk)|]. right. eauto.
Qed.

Lemma exec_routed calls st :
  wf st → routed st → routed (exec doc build calls st).
Proof.
  revert st. induction calls as [|c calls IH]; intros st Hwf Hrt; cbn; [done|].
  apply IH; [by apply step_wf|by apply step_routed].
Qed.

Lemma constructor_sent cfg : sent (constructor cfg) = [].
Proof. rewrite constructor_shape. by destruct (truthy_opt _). Qed.

(** Every request an execution has sent went through an allocated client,
    either the shared client or a cached user client; under per-user mode it
    never went through the shared client. *)
Theorem requests_go_through_known_clients cfg calls r req :
  let st := exec doc build calls (constructor cfg) in
  (r, req) ∈ sent st →
  r < length (store st)
  ∧ (baseClient st = Some r ∨ ∃ k, userClients st !! k = Some r)
  ∧ (Config.authMode cfg = per_user → baseClient st ≠ Some r).
Proof.
  intros st Hin.
  assert (routed st) as Hrt.
  { apply exec_routed; [apply constructor_wf|].
    intros r' req'. rewrite constructor_sent. by intros ?%elem_of_nil. }
  destruct (Hrt _ _ Hin) as [Hr Hwho]. split; [done|].
  unfold st in Hwho. rewrite reachable_config in Hwho. fold st in Hwho.
  split; [destruct Hwho as [[? _]|?]; eauto|].
  intros Hmode. destruct Hwho as [[_ Hne]|[k Hk]]; [done|].
  by destruct (wf_user _ (reachable_wf doc build cfg calls) _ _ Hk).
Qed.

(** ** Accounting of the store *)

Lemma getUserClient_accounted u st :
  accounted st → accounted (snd (getUserClient u st)).
Proof.
  unfold accounted. intros Hacc.
  destruct (userClients st !! userKey (config st) u) as [r|] eqn:Hk.
  - by rewrite (getUserClient_hit _ _ _ Hk).
  - rewrite (getUserClient_miss _ _ Hk). cbn.
    rewrite length_app, map_size_insert_None by done. cbn. lia.
Qed.

Lemma step_accounted c st : accounted st → accounted (step doc build c st).
Proof.
  intros Hacc. unfold accounted.
  rewrite (ext_base _ _ (step_extends doc build c st)).
  destruct (step_cache_any c st) as [[-> ->]|(u & _ & -> & ->)]; [done|].
  pose proof (getUserClient_accounted u st Hacc) as Hacc'.
  unfold accounted in Hacc'.
  by rewrite (ext_base _ _ (getUserClient_extends u st)) in Hacc'.
Qed.

Lemma exec_accounted calls st :
  accounted st → accounted (exec doc build calls st).
Proof.
  revert st. induction calls as [|c calls IH]; intros st Hacc; cbn; [done|].
  by apply IH, step_accounted.
Qed.

Lemma constructor_accounted cfg : accounted (constructor cfg).
Proof.
  unfold accounted. rewrite constructor_shape. by destruct (truthy_opt _).
Qed.

(** The clients ever allocated are the shared client, when a shared token is
    configured, and one per key of the cache: nothing else is built. *)
Theorem store_accounting cfg calls :
  let st := exec doc build calls (constructor cfg) in
  length (store st)
  = size (userClients st)
    + (if truthy_opt (Config.sharedAccessToken cfg) then 1 else 0).
Proof.
  intros st.
  pose proof (exec_accounted calls _ (constructor_accounted cfg)) as Hacc.
  unfold accounted in Hacc. fold st in Hacc. rewrite Hacc. unfold st.
  rewrite reachable_baseClient. by destruct (truthy_opt _).
Qed.

(** ** Whose client a credential is served *)

Lemma getUserClient_bound u st :
  has_colon (UserConfig.accessToken u) = false →
  bound st → bound (snd (getUserClient u st)).
Proof.
  intros Hfree Hb.
  destruct (userClients st !! userKey (config st) u) as [r|] eqn:Hk.
  - by rewrite (getUserClient_hit _ _ _ Hk).
  - rewrite (getUserClient_miss _ _ Hk). intros k r. cbn.
    rewrite lookup_insert. case_decide as Hkey.
    + intros [= <-]. subst k.
      exists (effectiveUrl (config st) u), (UserConfig.accessToken u).
      split; [done|]. split; [done|]. by apply list_lookup_middle.
    + intros Hr. destruct (Hb _ _ Hr) as (u' & t & Ht & Hkt & Hst).
      exists u', t. split; [done|]. split; [done|].
      by apply lookup_app_l_Some.
Qed.

Lemma step_bound c st :
  colon_free_call c = true → bound st → bound (step doc build c st).
Proof.
  intros Hfree Hb k r.
  destruct (step_cache_any c st) as [[-> ->]|(u & Hc & -> & ->)];
    [apply Hb|].
  apply getUserClient_bound; [|done].
  unfold colon_free_call in Hfree. rewrite Hc in Hfree.
  by apply negb_true_iff in Hfree.
Qed.

Lemma exec_bound calls st :
  Forall (λ c, colon_free_call c = true) calls →
  bound st → bound (exec doc build calls st).
Proof.
  intros Hfree. revert st.
  induction Hfree as [|c calls Hc _ IH]; intros st Hb; cbn; [done|].
  by apply IH, step_bound.
Qed.

(** In an execution whose credentials all have tokens without a colon, a
    credential is served a client built for its own endpoint and its own
    token. *)
Theorem credential_is_served_its_own_client cfg calls uc :
  Forall (λ c, colon_free_call c = true) calls →
  has_colon (UserConfig.accessToken uc) = false →
  let st := exec doc build calls (constructor cfg) in
  ∃ r, fst (getUserClient uc st) = Returns (Some r)
       ∧ store (snd (getUserClient uc st)) !! r
         = Some (client_for (effectiveUrl cfg uc) (UserConfig.accessToken uc)).
Proof.
  intros Hcalls Hfree st.
  assert (bound (snd (getUserClient uc st))) as Hb.
  { apply getUserClient_bound; [done|]. apply exec_bound; [done|].
    intros k r. by rewrite constructor_cache_empty. }
  destruct (getUserClient_returns uc st) as (r & Hr & Hk).
  exists r. split; [done|].
  destruct (Hb _ _ Hk) as (u & t & Ht & Hkey & Hst).
  unfold st in Hkey. rewrite reachable_config in Hkey.
  unfold userKey, key_of in Hkey. cbn in Hkey.
  by apply append_colon_inj in Hkey as [-> ->].
Qed.

(** ** The shared path *)

(** With a shared token configured and a mode other than per-user, [query]
    for an anonymous read is one call of [request], inside the [try] of
    [query], on the shared client, which is client 0 and was built for the
    configured endpoint and the shared token, with the document and the
    variables [query] was given.  Whether anything leaves the process and how
    the call ends is [request]'s: its result is returned as it is, what it
    throws is wrapped. *)
Theorem anonymous_read_uses_shared_token cfg calls tok q v
    (reply : Outcome Response) :
  Config.sharedAccessToken cfg = Some tok → truthy tok = true →
  Config.authMode cfg ≠ per_user →
  let st := exec doc build calls (constructor cfg) in
  baseClient st = Some 0
  ∧ store st !! 0 = Some (client_for (Config.gitlabUrl cfg) tok)
  ∧ query q v None false reply st
    = try_catch
        (request (Some 0) {| document := q; variables := v |} reply)
        (λ error, throw (Error ("GraphQL query failed: " +:+ to_string error)))
        st.
Proof.
  intros Htok Htruthy Hmode st.
  split; [unfold st; by rewrite reachable_baseClient, Htok; cbn; rewrite Htruthy|].
  split.
  - eapply prefix_lookup_Some;
      [|apply (ext_store _ _ (exec_extends doc build calls _))].
    rewrite constructor_shape, Htok. cbn. by rewrite Htruthy.
  - unfold st. rewrite (query_anonymous_read cfg calls tok) by done.
    unfold try_catch, request, bind, modify, ret, throw. cbn.
    by destruct reply.
Qed.

(** ** Where a stored schema comes from *)

Lemma step_schema c st s :
  schema st = None → schema (step doc build c st) = Some s →
  ∃ uc a, c = call_introspectSchema uc (Returns a) ∧ build a = Returns s.
Proof.
  intros Hs.
  destruct c as [u|uc w|uc reply|q v uc w reply]; unfold step.
  - rewrite <- getClient_user with (w := false), getClient_schema. congruence.
  - rewrite getClient_schema. congruence.
  - pose proof (introspectSchema_first doc build uc reply st Hs) as Hfirst.
    pose proof (getClient_schema uc false st) as Hsch.
    cbn in Hfirst.
    destruct (getClient uc false st) as [[[r|]|e] st']; cbn in *;
      try (rewrite Hfirst; cbn; congruence).
    destruct reply as [a|e]; [|rewrite Hfirst; cbn; congruence].
    destruct (build a) as [s'|e] eqn:Hb; rewrite Hfirst; cbn; [|congruence].
    intros [= <-]. eauto.
  - rewrite query_full.
    pose proof (getClient_schema uc w st) as Hsch.
    destruct (getClient uc w st) as [[[r|]|e] st']; cbn in *; congruence.
Qed.

(** A stored schema was built from the reply to a call of [introspectSchema]
    of the execution; as long as none is stored, both views are empty. *)
Theorem stored_schema_comes_from_a_reply cfg calls :
  let st := exec doc build calls (constructor cfg) in
  match schema st with
  | Some s =>
      ∃ uc a, call_introspectSchema uc (Returns a) ∈ calls
              ∧ build a = Returns s
  | None => getAvailableQueries st = [] ∧ getAvailableMutations st = []
  end.
Proof.
  intros st.
  destruct (schema st) as [s|] eqn:Hs; cycle 1.
  { unfold getAvailableQueries, getAvailableMutations. by rewrite Hs. }
  assert (schema (constructor cfg) = None) as H0.
  { rewrite constructor_shape. by destruct (truthy_opt _). }
  unfold st in Hs. clear st. revert Hs H0. generalize (constructor cfg).
  induction calls as [|c calls IH]; intros st Hs H0; cbn in *; [congruence|].
  destruct (schema (step doc build c st)) as [s'|] eqn:Hs'.
  - destruct (step_schema c st s' H0 Hs') as (uc & a & -> & Hb).
    rewrite (ext_schema _ _ (exec_extends doc build calls _) _ Hs') in Hs.
    injection Hs as <-. exists uc, a. split; [left|done].
  - destruct (IH _ Hs Hs') as (uc & a & Hin & Hb).
    exists uc, a. split; [by right|done].
Qed.

(** ** What stays *)

(** Nothing the object holds is evicted, replaced or changed: through every
    execution, from every state, the configuration and the shared client
    stay, every key of the cache keeps its client, and every allocated client,
    the shared one included, keeps its place, its endpoint and its headers. *)
Theorem nothing_is_evicted_or_replaced calls st :
  let st' := exec doc build calls st in
  config st' = config st
  ∧ baseClient st' = baseClient st
  ∧ (∀ k r, userClients st !! k = Some r → userClients st' !! k = Some r)
  ∧ (∀ r c, store st !! r = Some c → store st' !! r = Some c).
Proof.
  intros st'. destruct (exec_extends doc build calls st).
  split; [done|]. split; [done|]. split.
  - intros k r Hk. by eapply lookup_weaken.
  - intros r c Hr. by eapply prefix_lookup_Some.
Qed.

(** Neither [getUserClient] nor [getClient] ever returns [undefined]: the
    non-null assertion on [userClients.get(userKey)] holds in every state. *)
Theorem clients_are_never_undefined uc w st :
  (∀ u, ∃ r, fst (getUserClient u st) = Returns (Some r))
  ∧ fst (getClient uc w st) ≠ Returns None.
Proof.
  split.
  - intros u. destruct (getUserClient_returns u st) as (r & Hr & _). eauto.
  - intros Hnone. by destruct (getClient_defined _ _ _ _ Hnone).
Qed.

End Routing.

(** * Properties of the surroundings *)

Section Around.

Context {Response : Type}.
Variable doc : string.
Variable build : Response → Outcome GraphQLSchema.
Variable is_url : string → bool.
Variable ZodError : list string → Thrown.
Variable parseInt : string → option Z.
Variable encode : JsValue → string.

(** ** Configuration *)

Lemma ConfigSchema_parse_returns url tok pageSize timeout mode cfg :
  ConfigSchema_parse is_url ZodError url tok pageSize timeout mode
  = Returns cfg →
  is_url url = true
  ∧ (∃ n, pageSize = Some n ∧ (1 ≤ n ≤ 100)%Z ∧ Config.maxPageSize cfg = n)
  ∧ (∃ n, timeout = Some n ∧ (1000 ≤ n)%Z ∧ Config.defaultTimeout cfg = n)
  ∧ Config.gitlabUrl cfg = url
  ∧ Config.sharedAccessToken cfg = tok.
Proof.
  unfold ConfigSchema_parse.
  destruct (is_url url); [|done].
  destruct pageSize as [n|]; [|done].
  destruct ((1 <=? n)%Z && (n <=? 100)%Z) eqn:Hn; [|done].
  destruct timeout as [m|]; [|done].
  destruct (1000 <=? m)%Z eqn:Hm; [|done].
  apply andb_true_iff in Hn as [Hn1%Z.leb_le Hn2%Z.leb_le].
  apply Z.leb_le in Hm.
  repeat case_match; try done; cbn; intros [= <-]; cbn;
    (split; [done|]);
    (split; [exists n; split; [done|]; split; [lia|done]|]);
    (split; [exists m; split; [done|]; split; [lia|done]|]);
    done.
Qed.

(** A configuration that [loadConfig] returns is within the bounds of the
    schema, its shared token is the non-empty value of
    GITLAB_SHARED_ACCESS_TOKEN or absent, never empty, so that the object
    built from it has a shared client exactly when that variable is set to a
    non-empty string. *)
Theorem loadConfig_validated env cfg :
  loadConfig is_url ZodError parseInt env = Returns cfg →
  (1 ≤ Config.maxPageSize cfg ≤ 100)%Z
  ∧ (1000 ≤ Config.defaultTimeout cfg)%Z
  ∧ is_url (Config.gitlabUrl cfg) = true
  ∧ Config.sharedAccessToken cfg ≠ Some ""
  ∧ (is_Some (baseClient (constructor cfg)) ↔
     ∃ s, env !! "GITLAB_SHARED_ACCESS_TOKEN" = Some s ∧ s ≠ "").
Proof.
  intros Hload. unfold loadConfig in Hload.
  apply ConfigSchema_parse_returns in Hload
    as (Hurl & (n & _ & Hn & Hn') & (m & _ & Hm & Hm') & Hu & Htok).
  split; [lia|]. split; [lia|]. split; [by rewrite Hu|].
  rewrite constructor_shape, Htok.
  destruct (env !! "GITLAB_SHARED_ACCESS_TOKEN") as [[|c s]|]; cbn.
  - split; [done|]. split; [by intros [? ?]|]. by intros (s & [= <-] & ?).
  - split; [done|]. split; [eauto|]. intros _. eauto.
  - split; [done|]. split; [by intros [? ?]|]. by intros (s & ? & ?).
Qed.

(** A variable of the environment set to the empty string counts as unset. *)
Theorem loadConfig_empty_is_unset env name :
  env !! name = Some "" →
  loadConfig is_url ZodError parseInt env
  = loadConfig is_url ZodError parseInt (delete name env).
Proof.
  intros Hempty.
  assert (∀ k, delete name env !! k = env !! k
               ∨ (env !! k = Some "" ∧ delete name env !! k = None)) as Hk.
  { intros k. destruct (decide (name = k)) as [<-|Hne].
    - right. by rewrite lookup_delete_eq.
    - left. by rewrite lookup_delete_ne. }
  unfold loadConfig. f_equal;
    match goal with
    | |- context [env !! ?k] =>
        destruct (Hk k) as [->|[-> ->]]; done
    end.
Qed.

(** ** Credentials given to a tool *)

Lemma validateUserConfig_returns raw uc :
  validateUserConfig is_url ZodError raw = Returns uc →
  UserConfig.accessToken uc ≠ ""
  ∧ match UserConfig.gitlabUrl uc with
    | Some u => is_url u = true
    | None => True
    end
  ∧ ∃ props, raw = JObject props
             ∧ prop "accessToken" props = JString (UserConfig.accessToken uc)
             ∧ prop "gitlabUrl" props = js_opt (UserConfig.gitlabUrl uc).
Proof.
  unfold validateUserConfig. destruct raw as [| | | | | |props]; try done.
  destruct (prop "accessToken" props) as [| | | |tok| |] eqn:Htok; try done;
    try (by repeat case_match).
  destruct tok as [|c tok]; cbn; [by repeat case_match|].
  destruct (prop "gitlabUrl" props) as [| | | |u| |] eqn:Hu; try done.
  - intros [= <-]. cbn. repeat split; try done. eauto.
  - destruct (is_url u) eqn:Hurl; [|done].
    intros [= <-]. cbn. repeat split; try done. eauto.
Qed.

(** Credentials given in the input of a tool are validated and then used,
    whatever [userConfig] the server passes: valid ones have a non-empty
    token and, if any, a well-formed URL; invalid ones make the handler throw
    zod's error, with no fall-back to [userConfig] and without touching the
    client object. *)
Theorem explicit_credentials_are_validated raw userConfig st :
  js_truthy raw = true →
  match validateUserConfig is_url ZodError raw with
  | Returns uc =>
      credentials_of is_url ZodError raw userConfig st = (Returns (Some uc), st)
      ∧ UserConfig.accessToken uc ≠ ""
      ∧ (∀ u, UserConfig.gitlabUrl uc = Some u → is_url u = true)
  | Throws e =>
      credentials_of is_url ZodError raw userConfig st = (Throws e, st)
      ∧ (∀ q v w (reply : Outcome Response),
           executeCustomQuery_handler is_url ZodError encode
             {| cq_query := q; cq_variables := v; cq_requiresWrite := w;
                cq_userCredentials := raw |} userConfig reply st
           = (Throws e, st))
      ∧ (∀ reply : Outcome Response,
           getAvailableQueries_handler doc build is_url ZodError raw
             userConfig reply st
           = (Throws e, st))
  end.
Proof.
  intros Htruthy.
  destruct (validateUserConfig is_url ZodError raw) as [uc|e] eqn:Hv.
  - destruct (validateUserConfig_returns _ _ Hv) as (Htok & Hurl & _).
    unfold credentials_of. rewrite Htruthy, Hv.
    split; [done|]. split; [done|]. intros u Hu. by rewrite Hu in Hurl.
  - unfold executeCustomQuery_handler, getAvailableQueries_handler, bind.
    unfold credentials_of. cbn. by rewrite Htruthy, Hv.
Qed.

(** ** Methods on fixed documents *)

(** [createIssue] and [createMergeRequest] are writes.  Without a user
    credential they throw, in every state, leaving the object as it was; with
    one, in an execution, the mutation and its input go through the client
    cached for that credential, never through the shared client. *)
Theorem create_methods_need_a_user_credential mutation1 mutation2
    p t src tgt d (reply : Outcome Response) :
  let refused :=
    Throws (Error ("GraphQL query failed: Error: "
                   +:+ msg_write_requires_user)) in
  let issue :=
    JObject [("input", JObject [("projectPath", JString p);
                                ("title", JString t);
                                ("description", js_opt d)])] in
  let merge_request :=
    JObject [("input", JObject [("projectPath", JString p);
                                ("title", JString t);
                                ("sourceBranch", JString src);
                                ("targetBranch", JString tgt);
                                ("description", js_opt d)])] in
  (∀ st, createIssue encode mutation1 p t d None reply st = (refused, st))
  ∧ (∀ st, createMergeRequest encode mutation2 p t src tgt d None reply st
           = (refused, st))
  ∧ ∀ cfg calls u,
      let st := exec doc build calls (constructor cfg) in
      let st1 := snd (createIssue encode mutation1 p t d (Some u) reply st) in
      let st2 :=
        snd (createMergeRequest encode mutation2 p t src tgt d (Some u)
               reply st) in
      (∃ r, sent st1
            = sent st ++ [(r, {| document := mutation1;
                                 variables := Some (encode issue) |})]
            ∧ userClients st1 !! userKey cfg u = Some r
            ∧ baseClient st1 ≠ Some r)
      ∧ (∃ r, sent st2
              = sent st ++ [(r, {| document := mutation2;
                                   variables := Some (encode merge_request) |})]
              ∧ userClients st2 !! userKey cfg u = Some r
              ∧ baseClient st2 ≠ Some r).
Proof.
  cbv zeta. split; [done|]. split; [done|].
  intros cfg calls u. split; apply query_with_credential.
Qed.

(** [searchRepositoryFiles] never sends its search term, and both repository
    reads send "HEAD" for a ref that is absent or empty: the requests for
    [undefined], [""] and ["HEAD"] are the same. *)
Theorem repository_reads_default_the_ref document p path term term'
    uc (reply : Outcome Response) :
  searchRepositoryFiles encode document p term None uc reply
  = searchRepositoryFiles encode document p term' (Some "HEAD") uc reply
  ∧ searchRepositoryFiles encode document p term (Some "") uc reply
    = searchRepositoryFiles encode document p term' (Some "HEAD") uc reply
  ∧ getFileContent encode document p path None uc reply
    = getFileContent encode document p path (Some "HEAD") uc reply
  ∧ getFileContent encode document p path (Some "") uc reply
    = getFileContent encode document p path (Some "HEAD") uc reply.
Proof. done. Qed.

(** Under a configuration that [loadConfig] returned, [globalSearch] is
    [query], as a read, on its document with the variables [search] and
    [first], where [first] is the [maxPageSize] of the configuration, a number
    between 1 and 100; the scope given plays no part.  With a credential the
    one call of [request] carries exactly these variables. *)
Theorem globalSearch_page_size env cfg calls document term scope u
    (reply : Outcome Response) :
  loadConfig is_url ZodError parseInt env = Returns cfg →
  let st := exec doc build calls (constructor cfg) in
  let variables :=
    encode (JObject [("search", JString term);
                     ("first", JNumber (Config.maxPageSize cfg))]) in
  (1 ≤ Config.maxPageSize cfg ≤ 100)%Z
  ∧ (∀ userConfig,
       globalSearch encode document term scope userConfig reply st
       = query document (Some variables) userConfig false reply st)
  ∧ ∃ r,
      sent (snd (globalSearch encode document term scope (Some u) reply st))
      = sent st
        ++ [(r, {| document := document; variables := Some variables |})]
      ∧ userClients
          (snd (globalSearch encode document term scope (Some u) reply st))
          !! userKey cfg u = Some r.
Proof.
  intros Hload st variables.
  apply ConfigSchema_parse_returns in Hload
    as (_ & (n & _ & Hn & Hn') & _).
  assert (∀ userConfig,
            globalSearch encode document term scope userConfig reply st
            = query document (Some variables) userConfig false reply st)
    as Hquery.
  { intros userConfig. unfold globalSearch, bind, get. cbn.
    unfold st at 1. by rewrite reachable_config. }
  split; [lia|]. split; [done|].
  rewrite Hquery.
  destruct (query_with_credential doc build cfg calls document
              (Some variables) u false reply) as (r & Hsent & Hk & _).
  by exists r.
Qed.

(** ** Tools *)

(** [execute_custom_query] is guarded by its flag alone.  Flagged as a write
    and without credentials, the handler throws before the client object is
    touched; not flagged, in an execution with a shared token and a mode other
    than per-user, its document, whatever it is, goes through the shared
    client. *)
Theorem custom_query_is_guarded_by_its_flag q v raw
    (reply : Outcome Response) :
  js_truthy raw = false →
  (∀ st,
     executeCustomQuery_handler is_url ZodError encode
       {| cq_query := q; cq_variables := v; cq_requiresWrite := true;
          cq_userCredentials := raw |} None reply st
     = (Throws (Error msg_custom_write_requires_user), st))
  ∧ ∀ cfg calls tok,
      Config.sharedAccessToken cfg = Some tok → truthy tok = true →
      Config.authMode cfg ≠ per_user →
      let st := exec doc build calls (constructor cfg) in
      executeCustomQuery_handler is_url ZodError encode
        {| cq_query := q; cq_variables := v; cq_requiresWrite := false;
           cq_userCredentials := raw |} None reply st
      = (match reply with
         | Returns a => Returns a
         | Throws e =>
             Throws (Error ("GraphQL query failed: " +:+ to_string e))
         end,
         set_sent
           (sent st ++ [(0, {| document := q; variables := encode <$> v |})])
           st).
Proof.
  intros Hfalsy. split.
  - intros st. unfold executeCustomQuery_handler, credentials_of, bind.
    cbn. by rewrite Hfalsy.
  - intros cfg calls tok Htok Htruthy Hmode st.
    unfold executeCustomQuery_handler, credentials_of, bind.
    cbn. rewrite Hfalsy. cbn.
    by apply (query_anonymous_read doc build cfg calls tok).
Qed.

(** Once a schema is stored, [get_available_queries] answers every caller who
    gives no credentials in the input with the field names of that schema, and
    leaves the object as it is; on a first call whose introspection succeeds
    it answers with the field names of the schema just built. *)
Theorem available_queries_tool raw userConfig st :
  js_truthy raw = false →
  (∀ s (reply : Outcome Response),
     schema st = Some s →
     getAvailableQueries_handler doc build is_url ZodError raw userConfig
       reply st
     = (Returns (default [] (getQueryType s), default [] (getMutationType s)),
        st))
  ∧ (∀ a s,
       schema st = None →
       (∃ c, fst (getClient userConfig false st) = Returns c) →
       build a = Returns s →
       fst (getAvailableQueries_handler doc build is_url ZodError raw
              userConfig (Returns a) st)
       = Returns (default [] (getQueryType s),
                  default [] (getMutationType s))).
Proof.
  intros Hfalsy. split.
  - intros s reply Hs.
    unfold getAvailableQueries_handler, credentials_of, bind, get, ret.
    rewrite Hfalsy. cbn.
    rewrite (introspectSchema_stored doc build _ _ _ _ Hs). cbn.
    unfold getAvailableQueries, getAvailableMutations. rewrite Hs.
    by destruct (getQueryType s), (getMutationType s).
  - intros a s Hs [c Hc] Hb.
    destruct (getClient_defined _ _ _ _ Hc) as [r ->].
    pose proof (introspectSchema_first doc build userConfig (Returns a) st Hs)
      as Hfirst.
    cbn in Hfirst.
    unfold getAvailableQueries_handler, credentials_of, bind, get, ret.
    rewrite Hfalsy. cbn.
    destruct (getClient userConfig false st) as [o st']; cbn in *. subst o.
    rewrite Hb in Hfirst. rewrite Hfirst. cbn.
    unfold getAvailableQueries, getAvailableMutations. cbn.
    by destruct (getQueryType s), (getMutationType s).
Qed.

(** ** Start-up *)

(** [run] ends in a running server exactly when the configuration loads and
    the transport connects.  The object it then holds has sent one request,
    the introspection query through the shared client, if a shared token is
    configured and the mode is not per-user, and nothing otherwise; a schema
    is stored only if that request was answered and the answer built; a
    failed introspection stops nothing. *)
Theorem run_starts_with_at_most_one_request env (reply : Outcome Response)
    connect :
  fst (run_server doc build is_url ZodError parseInt env reply connect) =
    match loadConfig is_url ZodError parseInt env, connect with
    | Returns cfg, Returns _ =>
        let st0 := constructor cfg in
        if truthy_opt (Config.sharedAccessToken cfg)
           && negb (bool_decide (Config.authMode cfg = per_user))
        then
          let st1 :=
            set_sent [(0, {| document := doc; variables := None |})] st0 in
          Running
            match reply with
            | Returns a =>
                match build a with
                | Returns s => set_schema (Some s) st1
                | Throws _ => st1
                end
            | Throws _ => st1
            end
        else Running st0
    | Returns _, Throws _ => Exited 1
    | Throws _, _ => Exited 1
    end.
Proof.
  unfold run_server.
  destruct (loadConfig is_url ZodError parseInt env) as [cfg|e]; [|done].
  assert (schema (constructor cfg) = None) as Hs.
  { rewrite constructor_shape. by destruct (truthy_opt _). }
  pose proof (introspectSchema_first doc build None reply _ Hs) as Hfirst.
  pose proof (reachable_baseClient doc build cfg []) as Hb.
  pose proof (reachable_config doc build cfg []) as Hc.
  pose proof (constructor_sent cfg) as Hsent.
  cbn in Hfirst, Hb, Hc.
  unfold getClient, bind, get, ret, throw in Hfirst. cbn in Hfirst.
  rewrite Hb, Hc in Hfirst.
  destruct (truthy_opt (Config.sharedAccessToken cfg)); cbn in *;
    [|by destruct connect].
  destruct (bool_decide (Config.authMode cfg = per_user)); cbn in *.
  { rewrite Hfirst. by destruct connect. }
  rewrite Hsent in Hfirst. cbn in Hfirst.
  destruct reply as [a|e]; [destruct (build a)|]; rewrite Hfirst;
    by destruct connect.
Qed.

End Around.

(** ** Instances and witnesses of the further properties *)

Example loadConfig_sample :
  loadConfig sample_is_url sample_ZodError sample_parseInt sample_env
  = Returns (Config.mk "https://gitlab.com" (Some "shared-token") 25 30000
               hybrid).
Proof. by vm_compute. Qed.

Example loadConfig_rejects_page_size :
  loadConfig sample_is_url sample_ZodError sample_parseInt
    {[ "GITLAB_MAX_PAGE_SIZE" := "500"; "GITLAB_AUTH_MODE" := "admin" ]}
  = Throws (sample_ZodError ["maxPageSize"; "authMode"]).
Proof. by vm_compute. Qed.

Example validateUserConfig_sample :
  validateUserConfig sample_is_url sample_ZodError sample_raw_credentials
  = Returns (UserConfig.mk "T" (Some "https://gitlab.example.com"))
  ∧ validateUserConfig sample_is_url sample_ZodError sample_bad_credentials
    = Throws (sample_ZodError ["accessToken"; "gitlabUrl"]).
Proof. by vm_compute. Qed.

Example run_in_per_user_mode_sends_nothing :
  run_server sample_doc sample_build sample_is_url sample_ZodError
    sample_parseInt
    (<["GITLAB_AUTH_MODE" := "per-user"]> sample_env) (Returns "{}")
    (Returns tt)
  = (Running
       (constructor
          (Config.mk "https://gitlab.com" (Some "shared-token") 25 30000
             per_user)),
     ["Warning: Failed to introspect schema with shared token:";
      "Schema will be introspected when user credentials are provided";
      "GitLab MCP Server running on stdio"]).
Proof. by vm_compute. Qed.

Lemma key_of_injective_without_colon_witness :
  has_colon "glpat-1" = false
  ∧ key_of ("https://gitlab.com", "glpat-1")
    ≠ key_of ("https://gitlab.com:443", "glpat-1").
Proof.
  split; [reflexivity|]. intros Hkey.
  pose proof (key_of_injective_without_colon
                ("https://gitlab.com", "glpat-1")
                ("https://gitlab.com:443", "glpat-1")
                eq_refl eq_refl Hkey) as Heq.
  discriminate Heq.
Defined.

Lemma cache_growth_without_colon_witness :
  size (userClients
          (getUserClients
             [cred_T; UserConfig.mk "U" None;
              UserConfig.mk "T" (Some "https://gitlab.example.com")]
             (constructor cfg_hybrid_shared))) = 3.
Proof.
  apply (cache_growth_without_colon cfg_hybrid_shared
           [cred_T; UserConfig.mk "U" None;
            UserConfig.mk "T" (Some "https://gitlab.example.com")]).
  - repeat constructor.
  - apply (bool_decide_unpack _). vm_compute. exact I.
Defined.

Lemma refusal_has_no_effect_witness :
  fst (getClient None false (constructor cfg_per_user_shared))
  = Throws (Error msg_requires_user)
  ∧ query (Response := string) "query { currentUser }" None None false
      (Returns "{}") (constructor cfg_per_user_shared)
    = (Throws (Error ("GraphQL query failed: Error: " +:+ msg_requires_user)),
       constructor cfg_per_user_shared).
Proof.
  split; [vm_compute; reflexivity|].
  destruct (refusal_has_no_effect sample_doc sample_build None false
              (constructor cfg_per_user_shared) (Error msg_requires_user)
              ltac:(vm_compute; reflexivity)) as (_ & Hquery & _).
  apply Hquery.
Defined.

Lemma requests_go_through_known_clients_witness :
  let calls :=
    [call_query "query { currentUser }" None (Some cred_T) false
       (Returns "{}")] in
  (1, {| document := "query { currentUser }"; variables := None |})
    ∈ sent (exec sample_doc sample_build calls (constructor cfg_per_user_shared))
  ∧ baseClient
      (exec sample_doc sample_build calls (constructor cfg_per_user_shared))
    ≠ Some 1.
Proof.
  cbv zeta.
  assert ((1, {| document := "query { currentUser }"; variables := None |})
            ∈ sent (exec sample_doc sample_build
                      [call_query "query { currentUser }" None (Some cred_T)
                         false (Returns "{}")]
                      (constructor cfg_per_user_shared))) as Hin
    by (vm_compute; left).
  split; [exact Hin|].
  destruct (requests_go_through_known_clients sample_doc sample_build
              cfg_per_user_shared _ _ _ Hin) as (_ & _ & Hmode).
  by apply Hmode.
Defined.

Lemma credential_is_served_its_own_client_witness :
  ∃ r,
    store (snd (getUserClient cred_T
                  (exec sample_doc sample_build
                     [call_getUserClient (UserConfig.mk "U" None)]
                     (constructor cfg_hybrid_shared)))) !! r
    = Some (client_for "https://gitlab.com" "T").
Proof.
  destruct (credential_is_served_its_own_client sample_doc sample_build
              cfg_hybrid_shared
              [call_getUserClient (UserConfig.mk "U" None)] cred_T
              ltac:(repeat constructor) eq_refl) as (r & _ & Hr).
  exists r. exact Hr.
Defined.

Lemma anonymous_read_uses_shared_token_witness :
  let st :=
    exec sample_doc sample_build [call_getUserClient cred_T]
      (constructor cfg_hybrid_shared) in
  store st !! 0 = Some (client_for "https://gitlab.com" "shared-token")
  ∧ sent (snd (query (Response := string) "query { currentUser }" None None
                 false (Throws (Foreign "TypeError: fetch failed")) st))
    = [(0, {| document := "query { currentUser }"; variables := None |})].
Proof.
  cbv zeta.
  destruct (anonymous_read_uses_shared_token sample_doc sample_build
              cfg_hybrid_shared [call_getUserClient cred_T] "shared-token"
              "query { currentUser }" None
              (Throws (Foreign "TypeError: fetch failed"))
              eq_refl eq_refl ltac:(discriminate)) as (_ & Hstore & Hquery).
  split; [exact Hstore|]. rewrite Hquery. reflexivity.
Defined.

Lemma loadConfig_validated_witness :
  loadConfig sample_is_url sample_ZodError sample_parseInt sample_env
  = Returns (Config.mk "https://gitlab.com" (Some "shared-token") 25 30000
               hybrid)
  ∧ is_Some (baseClient
               (constructor
                  (Config.mk "https://gitlab.com" (Some "shared-token") 25
                     30000 hybrid))).
Proof.
  split; [vm_compute; reflexivity|].
  destruct (loadConfig_validated sample_is_url sample_ZodError
              sample_parseInt sample_env _ ltac:(vm_compute; reflexivity))
    as (_ & _ & _ & _ & Hbase).
  apply Hbase. exists "shared-token". split; [vm_compute; reflexivity|].
  discriminate.
Defined.

Lemma loadConfig_empty_is_unset_witness :
  sample_env !! "GITLAB_AUTH_MODE" = Some ""
  ∧ loadConfig sample_is_url sample_ZodError sample_parseInt sample_env
    = loadConfig sample_is_url sample_ZodError sample_parseInt
        (delete "GITLAB_AUTH_MODE" sample_env).
Proof.
  split; [vm_compute; reflexivity|].
  apply loadConfig_empty_is_unset. vm_compute. reflexivity.
Defined.

Lemma explicit_credentials_are_validated_witness :
  js_truthy sample_bad_credentials = true
  ∧ credentials_of sample_is_url sample_ZodError sample_bad_credentials
      (Some cred_T) (constructor cfg_hybrid_shared)
    = (Throws (sample_ZodError ["accessToken"; "gitlabUrl"]),
       constructor cfg_hybrid_shared).
Proof.
  split; [reflexivity|].
  pose proof (explicit_credentials_are_validated (Response := string)
                sample_doc sample_build sample_is_url sample_ZodError
                sample_encode sample_bad_credentials (Some cred_T)
                (constructor cfg_hybrid_shared) eq_refl) as H.
  destruct (validateUserConfig sample_is_url sample_ZodError
              sample_bad_credentials) as [uc|e] eqn:Hv;
    vm_compute in Hv; [discriminate Hv|].
  injection Hv as <-. exact (proj1 H).
Defined.

Lemma globalSearch_page_size_witness :
  let cfg :=
    Config.mk "https://gitlab.com" (Some "shared-token") 25 30000 hybrid in
  loadConfig sample_is_url sample_ZodError sample_parseInt sample_env
  = Returns cfg
  ∧ globalSearch sample_encode "query globalSearch" "bug" (Some "issues") None
      (Returns "{}") (constructor cfg)
    = query "query globalSearch"
        (Some (sample_encode (JObject [("search", JString "bug");
                                       ("first", JNumber 25)])))
        None false (Returns "{}") (constructor cfg).
Proof.
  cbv zeta. split; [vm_compute; reflexivity|].
  destruct (globalSearch_page_size sample_doc sample_build sample_is_url
              sample_ZodError sample_parseInt sample_encode sample_env
              (Config.mk "https://gitlab.com" (Some "shared-token") 25 30000
                 hybrid)
              [] "query globalSearch" "bug" (Some "issues") cred_T
              (Returns "{}") ltac:(vm_compute; reflexivity))
    as (_ & Hquery & _).
  exact (Hquery None).
Defined.

Lemma custom_query_is_guarded_by_its_flag_witness :
  js_truthy JUndefined = false
  ∧ fst (executeCustomQuery_handler (Response := string) sample_is_url
           sample_ZodError sample_encode
           {| cq_query := "mutation { issueCreate }"; cq_variables := None;
              cq_requiresWrite := false; cq_userCredentials := JUndefined |}
           None (Returns "{}") (constructor cfg_hybrid_shared))
    = Returns "{}".
Proof.
  split; [reflexivity|].
  destruct (custom_query_is_guarded_by_its_flag sample_doc sample_build
              sample_is_url sample_ZodError sample_encode
              "mutation { issueCreate }" None JUndefined (Returns "{}")
              eq_refl) as [_ Hshared].
  exact (f_equal fst
           (Hshared cfg_hybrid_shared [] "shared-token" eq_refl eq_refl
              ltac:(discriminate))).
Defined.

Lemma available_queries_tool_witness :
  let st :=
    snd (introspectSchema sample_doc sample_build (Some cred_T) (Returns "{}")
           (constructor cfg_per_user)) in
  getAvailableQueries_handler sample_doc sample_build sample_is_url
    sample_ZodError JUndefined None (Throws (Foreign "unreachable")) st
  = (Returns (["currentUser"; "project"; "projects"],
              ["createIssue"; "createMergeRequest"]), st).
Proof.
  cbv zeta.
  destruct (available_queries_tool sample_doc sample_build sample_is_url
              sample_ZodError JUndefined None
              (snd (introspectSchema sample_doc sample_build (Some cred_T)
                      (Returns "{}") (constructor cfg_per_user)))
              eq_refl) as [Hstored _].
  apply (Hstored sample_schema). vm_compute. reflexivity.
Defined.

Lemma nothing_is_evicted_or_replaced_witness :
  let st := snd (getUserClient cred_T (constructor cfg_hybrid_shared)) in
  let st' :=
    exec sample_doc sample_build
      [call_getUserClient (UserConfig.mk "U" None);
       call_introspectSchema None (Returns "{}")] st in
  baseClient st' = Some 0
  ∧ store st' !! 0 = Some (client_for "https://gitlab.com" "shared-token")
  ∧ userClients st' !! "https://gitlab.com:T" = Some 1
  ∧ store st' !! 1 = Some (client_for "https://gitlab.com" "T").
Proof.
  cbv zeta.
  destruct (nothing_is_evicted_or_replaced sample_doc sample_build
              [call_getUserClient (UserConfig.mk "U" None);
               call_introspectSchema None (Returns "{}")]
              (snd (getUserClient cred_T (constructor cfg_hybrid_shared))))
    as (_ & Hbase & Hcache & Hstore).
  split; [rewrite Hbase; vm_compute; reflexivity|].
  split; [apply Hstore; vm_compute; reflexivity|].
  split; [apply Hcache; vm_compute; reflexivity|].
  apply Hstore. vm_compute. reflexivity.
Defined.
